(** * OpenMV rp2 port: boot / soft-reset orchestrator and ROSC entropy routine

    Shallow embedding of [src/omv/ports/rp2/main.c]:
    - [Rosc]: [rosc_random_u8], the 8-bit mixing register fed by the ring
      oscillator's random bit;
    - [Fatal]: [__fatal_error], the LED blink loop;
    - [Lifecycle]: [main], the goto-driven soft-reset loop, as a labelled
      transition system whose labels are the calls [main] performs. *)

From Stdlib Require Import ZArith List Bool Lia String Ascii.
Import ListNotations.
Local Open Scope Z_scope.

(* ------------------------------------------------------------------------- *)
(** ** Entropy source: [rosc_random_u8] (main.c, lines 305-314) *)

Module Rosc.

(** [#define POLY (0xD5)] *)
Definition POLY : Z := 0xD5.

(** Store into a [uint8_t]: the value is reduced modulo 2^8. *)
Definition to_u8 (x : Z) : Z := x mod 2 ^ 8.

(** What the routine does to the hardware, in program order: a read of
    [rosc_hw->randombit] and a call of [mp_hal_delay_us_fast]. *)
Inductive hw_event : Type :=
  | RandomBit (b : bool)
  | DelayUsFast (us : Z).

(** The state the routine works on: [r] is the function's
    [static uint8_t r]; [reads] counts the reads of the RANDOMBIT register
    made so far (the register is volatile, every read yields a new sample);
    [log] records the hardware accesses. *)
Record hw : Type := mkHw {
  r : Z;
  reads : nat;
  log : list hw_event
}.

(** A [static] without initialiser starts at zero. *)
Definition power_on : hw := {| r := 0; reads := 0; log := [] |}.

(** The right-hand side of line 310, stored back into the [uint8_t]:
    [((r << 1) | rosc_hw->randombit) ^ (r & 0x80 ? POLY : 0)]. *)
Definition mix (r : Z) (randombit : Z) : Z :=
  to_u8 (Z.lxor (Z.lor (Z.shiftl r 1) randombit)
                (if Z.land r 0x80 =? 0 then 0 else POLY)).

Section Oscillator.

(** The value of bit 0 of [rosc_hw->randombit] at its n-th read; the other
    bits of the register read as zero. *)
Variable randombit : nat -> bool.

(** One iteration of the [for] loop (lines 310-311). *)
Definition loop_body (h : hw) : hw :=
  let b := randombit (reads h) in
  {| r := mix (r h) (Z.b2z b);
     reads := S (reads h);
     log := log h ++ [RandomBit b; DelayUsFast 1] |}.

(** [for (size_t i = 0; i < cycles; ++i)], by recursion on the number of
    iterations left. *)
Fixpoint for_loop (left : nat) (h : hw) : hw :=
  match left with
  | O => h
  | S left' => for_loop left' (loop_body h)
  end.

(** [uint8_t rosc_random_u8(size_t cycles)]: the returned byte and the
    state left behind. *)
Definition rosc_random_u8 (cycles : nat) (h : hw) : Z * hw :=
  let h' := for_loop cycles h in (r h', h').

(** The samples a call of [cycles] iterations reads when entered in [h]. *)
Definition samples (cycles : nat) (h : hw) : list bool :=
  map randombit (seq (reads h) cycles).

End Oscillator.

(** The mixing step in the words of the specification: shift the 8-bit
    accumulator left by one, put the sampled bit in the low position, and
    XOR with 0xD5 when the bit shifted out of the top was set. *)
Definition spec_mix (acc : Z) (bit : bool) : Z :=
  let shifted := (2 * acc) mod 256 + Z.b2z bit in
  if 128 <=? acc then Z.lxor shifted 0xD5 else shifted.

(** Inverse of the mixing step for a known sample: bit 0 of 0xD5 is set, so
    the low bit of the result tells whether the polynomial was applied. *)
Definition spec_unmix (acc' : Z) (bit : bool) : Z :=
  let top := xorb (Z.odd acc') bit in
  let shifted := if top then Z.lxor acc' 0xD5 else acc' in
  shifted / 2 + (if top then 128 else 0).

(** What one sample adds to the log. *)
Definition sample_log (b : bool) : list hw_event := [RandomBit b; DelayUsFast 1].

(** The values of a [uint8_t]. *)
Definition is_u8 (x : Z) : Prop := 0 <= x < 256.

Definition bytes : list Z := map Z.of_nat (seq 0 256).

(** An oscillator stub whose random bit is stuck at one. *)
Definition stuck_at_one : nat -> bool := fun _ => true.

(** [rosc_random_u32] (lines 316-322): four bytes of 32 samples each, most
    significant byte first, in a [uint32_t]. *)
Definition rosc_random_u32 (randombit : nat -> bool) (h : hw) : Z * hw :=
  fold_left
    (fun (acc : Z * hw) (_ : nat) =>
       let (b, h') := rosc_random_u8 randombit 32 (snd acc) in
       (Z.lor (Z.shiftl (fst acc) 8 mod 2 ^ 32) b, h'))
    (seq 0 4) (0, h).

End Rosc.

(* ------------------------------------------------------------------------- *)
(** ** Fatal handler: [__fatal_error] (main.c, lines 91-101) *)

Module Fatal.

(** The pico-sdk calls the handler makes. *)
Inductive call : Type :=
  | gpio_init (pin : Z)
  | gpio_set_dir (pin : Z) (out : bool)
  | gpio_put (pin : Z) (value : bool)
  | sleep_ms (ms : Z).

(** [GPIO_OUT] of the pico-sdk: direction "output". *)
Definition GPIO_OUT : bool := true.

(** Program points of the function, one per statement; [L_end] is the
    closing brace at line 101, where the function would return. *)
Inductive label : Type :=
  | L_gpio_init      (* line 92 *)
  | L_gpio_set_dir   (* line 93 *)
  | L_led_on         (* line 96 *)
  | L_sleep_on       (* line 97 *)
  | L_led_off        (* line 98 *)
  | L_sleep_off      (* line 99 *)
  | L_end.           (* line 101 *)

Section Board.

(** [OMV_LED_PIN] comes from the rp2 board configuration. *)
Variable OMV_LED_PIN : Z.

(** One statement: the call it makes and the program point that follows.
    The test of [while (true)] is the constant [true], so line 99 is
    followed by line 96; nothing leads to [L_end]. *)
Definition step (l : label) : option (call * label) :=
  match l with
  | L_gpio_init => Some (gpio_init OMV_LED_PIN, L_gpio_set_dir)
  | L_gpio_set_dir => Some (gpio_set_dir OMV_LED_PIN GPIO_OUT, L_led_on)
  | L_led_on => Some (gpio_put OMV_LED_PIN true, L_sleep_on)
  | L_sleep_on => Some (sleep_ms 100, L_led_off)
  | L_led_off => Some (gpio_put OMV_LED_PIN false, L_sleep_off)
  | L_sleep_off => Some (sleep_ms 100, L_led_on)
  | L_end => None
  end.

(** At most [n] statements from [l]: the calls made and the point reached.
    Execution stops early only where [step] has no successor. *)
Fixpoint run (n : nat) (l : label) : list call * label :=
  match n with
  | O => ([], l)
  | S n' =>
      match step l with
      | None => ([], l)
      | Some (c, l') => let (t, l'') := run n' l' in (c :: t, l'')
      end
  end.

(** The calls before the loop, and one period of the signal. *)
Definition prologue : list call :=
  [gpio_init OMV_LED_PIN; gpio_set_dir OMV_LED_PIN GPIO_OUT].

Definition blink : list call :=
  [gpio_put OMV_LED_PIN true; sleep_ms 100; gpio_put OMV_LED_PIN false; sleep_ms 100].

Fixpoint blinks (n : nat) : list call :=
  match n with
  | O => []
  | S n' => blink ++ blinks n'
  end.

End Board.

End Fatal.

(* ------------------------------------------------------------------------- *)
(** ** Lifecycle: [main] (main.c, lines 107-288) *)

Module Lifecycle.


(** The preprocessor switches and constants [main] depends on; they are
    defined by port and board headers. *)
Record config : Type := mkConfig {
  MICROPY_HW_ENABLE_UART_REPL : bool;
  NDEBUG : bool;
  MICROPY_PY_THREAD : bool;
  MICROPY_PY_BLUETOOTH : bool;
  MICROPY_PY_NETWORK : bool;
  MICROPY_PY_SENSOR : bool;
  MICROPY_VFS_FAT : bool;
  MICROPY_HW_USB_MSC : bool;
  MICROPY_PY_AUDIO : bool;
  MP_ENODEV : Z;
  PYEXEC_MODE_RAW_REPL : Z;
  USBCTRL_IRQ : Z
}.

(** How a call made inside an [nlr_push] region ends: it returns, or it
    leaves by [nlr_jump], and control resumes at [nlr_push] with a nonzero
    result. *)
Inductive outcome : Type :=
  | Returned (v : Z)
  | Raised.

(** The calls [main] makes, with the arguments that matter and with what
    the callee answered. *)
Inductive call : Type :=
  (* before the soft_reset label *)
  | setup_default_uart | mp_uart_init | stdio_init_all | mp_thread_init
  | rtc_init | rtc_set_datetime | mp_hal_time_ns_set_from_rtc
  | pico_get_unique_board_id
  (* runtime and sub-systems *)
  | mp_init_gc_stack | mp_init | mp_obj_list_append
  | readline_init0 | machine_pin_init | rp2_pio_init | rp2_dma_init
  | machine_i2s_init0 | mp_bluetooth_hci_init | mod_network_init
  | pendsv_init | usbdbg_init | fb_alloc_init0 | framebuffer_init0
  | py_fir_init0
  | sensor_init (ret : Z)
  | printf (msg : string)
  (* filesystem and USB *)
  | rp2_flash_make_new
  | mp_vfs_mount_and_chdir_protected (ret : Z)
  | mp_fat_vfs_make_new
  | mp_init_filesystem (ret : Z)
  | pyexec_frozen_module (name : string)
  | file_ll_touch (path : string)
  | tusb_inited (ret : bool)
  | tusb_init
  | irq_set_enabled (num : Z) (enabled : bool)
  | irq_get_vtable_handler (num : Z)
  | irq_remove_handler (num : Z)
  | irq_set_exclusive_handler (num : Z)
  (* scripts, REPL and the IDE channel *)
  | mp_exec_bootscript (path : string) (interrupted : bool)
  | mp_vfs_import_stat (path : string) (ret : Z)
  | usbdbg_script_ready (ret : bool)
  | nlr_push
  | nlr_pop
  | usbdbg_set_irq_enabled (enabled : bool)
  | pyexec_raw_repl (res : outcome)
  | pyexec_friendly_repl (res : outcome)
  | usbdbg_get_script
  | pyexec_str (res : outcome)
  | mp_obj_print_exception
  | usbdbg_is_busy (ret : bool)
  | usbdbg_wait_for_command (timeout : Z) (res : outcome)
  (* soft_reset_exit *)
  | mp_printf (msg : string)
  | py_audio_deinit | mp_bluetooth_deinit | mod_network_deinit
  | rp2_pio_deinit | rp2_dma_deinit | machine_pwm_deinit_all
  | machine_pin_deinit | gc_sweep_all | mp_deinit.

(** What the environment answers to the step being executed: [value] is the
    value the step's call returns (or, at line 229, the value read from the
    global [pyexec_mode_kind]); [raised] tells whether the call left by
    [nlr_jump] instead of returning, and is read only for the calls made
    inside an [nlr_push] region.  Calls made outside such a region are
    taken to return. *)
Record resp : Type := mkResp {
  value : Z;
  raised : bool
}.

Definition ret (v : Z) : resp := {| value := v; raised := false |}.
Definition raise : resp := {| value := 0; raised := true |}.

Definition outcome_of (i : resp) : outcome :=
  if raised i then Raised else Returned (value i).

(** A C integer read as a condition. *)
Definition truthy (v : Z) : bool := negb (v =? 0).

(** Program points of [main]: the two labels of the source, and the places
    where the control flow depends on an answer. *)
Inductive label : Type :=
  | L_entry            (* lines 108-145 *)
  | L_soft_reset       (* lines 147-175 *)
  | L_sensor_init      (* lines 177-181 *)
  | L_storage          (* lines 183-196 *)
  | L_mkfs             (* lines 189-190 *)
  | L_remount          (* line 191 *)
  | L_touch            (* line 199 *)
  | L_tusb             (* lines 202-209 *)
  | L_boot_py          (* line 212 *)
  | L_main_check       (* line 215 *)
  | L_main_py          (* lines 216-217 *)
  | L_repl_check       (* line 221 *)
  | L_repl_push        (* lines 224-229 *)
  | L_raw_repl         (* lines 230-232, 239 *)
  | L_friendly_repl    (* lines 234-236, 239 *)
  | L_host_check       (* line 243 *)
  | L_host_run         (* lines 244-255 *)
  | L_busy_check       (* line 257, left operand *)
  | L_wait             (* lines 257-265 *)
  | L_soft_reset_exit  (* lines 268-286 *)
  | L_return.          (* line 287 *)

(** The variables of [main] that steer it, and the enable state of the IDE
    interrupt. *)
Record state : Type := mkState {
  pc : label;
  first_soft_reset : bool;
  interrupted : bool;
  ide_irq : bool
}.

(** Entry of [main]; the locals are not initialised yet. *)
Definition power_on (irq : bool) : state :=
  {| pc := L_entry; first_soft_reset := false; interrupted := false; ide_irq := irq |}.

Definition nl : string := String (ascii_of_nat 10) EmptyString.

(** Lines 110-145. *)
Definition boot_calls (c : config) : list call :=
  (if MICROPY_HW_ENABLE_UART_REPL c then [setup_default_uart; mp_uart_init]
   else if NDEBUG c then [] else [stdio_init_all])
  ++ (if MICROPY_PY_THREAD c then [mp_thread_init] else [])
  ++ [rtc_init; rtc_set_datetime; mp_hal_time_ns_set_from_rtc;
      pico_get_unique_board_id].

(** Lines 149-153. *)
Definition runtime_init_calls : list call :=
  [mp_init_gc_stack; mp_init; mp_obj_list_append].

(** Lines 155-175, "Initialise sub-systems". *)
Definition init_subsystems (c : config) : list call :=
  [readline_init0; machine_pin_init; rp2_pio_init; rp2_dma_init;
   machine_i2s_init0]
  ++ (if MICROPY_PY_BLUETOOTH c then [mp_bluetooth_hci_init] else [])
  ++ (if MICROPY_PY_NETWORK c then [mod_network_init] else [])
  ++ [pendsv_init; usbdbg_init; fb_alloc_init0; framebuffer_init0;
      py_fir_init0].

(** Lines 269-284. *)
Definition teardown_calls (c : config) : list call :=
  [mp_printf ("MPY: soft reboot" ++ nl)%string]
  ++ (if MICROPY_PY_AUDIO c then [py_audio_deinit] else [])
  ++ (if MICROPY_PY_BLUETOOTH c then [mp_bluetooth_deinit] else [])
  ++ (if MICROPY_PY_NETWORK c then [mod_network_deinit] else [])
  ++ [rp2_pio_deinit; rp2_dma_deinit; machine_pwm_deinit_all;
      machine_pin_deinit; gc_sweep_all; mp_deinit].

(** Modelled from the spec: [usbdbg_set_irq_enabled] lives in usbdbg.c; the
    Debug Channel Gate's [set_interrupt_enabled(bool)] enables or disables
    the channel's interrupt source.  No other call of [main] is taken to
    change it. *)
Definition irq_effect (irq : bool) (e : call) : bool :=
  match e with
  | usbdbg_set_irq_enabled b => b
  | _ => irq
  end.

Definition irq_after (calls : list call) (irq : bool) : bool :=
  fold_left irq_effect calls irq.

(** Continue at [l] after making [calls]. *)
Definition goto (s : state) (calls : list call) (l : label)
  : option (list call * state) :=
  Some (calls, {| pc := l;
                  first_soft_reset := first_soft_reset s;
                  interrupted := interrupted s;
                  ide_irq := irq_after calls (ide_irq s) |}).

(** The body of the REPL guard after the REPL call (lines 230-239): a
    nonzero result breaks out of the [while] loop, before [nlr_pop]; an
    exception resumes at [nlr_push], skips the body, and the loop goes on. *)
Definition repl_result (s : state) (repl : outcome -> call) (i : resp)
  : option (list call * state) :=
  match outcome_of i with
  | Raised => goto s [repl Raised] L_repl_check
  | Returned v =>
      if truthy v then goto s [repl (Returned v)] L_host_check
      else goto s [repl (Returned v); nlr_pop] L_repl_check
  end.

(** One step of [main] from state [s], the environment answering [i]: the
    calls made, in order, and the state reached.  [L_return] is the
    [return 0] of line 287, where the program would end. *)
Definition step (c : config) (s : state) (i : resp)
  : option (list call * state) :=
  match pc s with
  | L_entry =>
      (* bool first_soft_reset = true; *)
      goto {| pc := pc s; first_soft_reset := true;
              interrupted := interrupted s; ide_irq := ide_irq s |}
           (boot_calls c) L_soft_reset
  | L_soft_reset =>
      goto s (runtime_init_calls ++ init_subsystems c) L_sensor_init
  | L_sensor_init =>
      if MICROPY_PY_SENSOR c then
        if value i =? 0 then goto s [sensor_init (value i)] L_storage
        else goto s [sensor_init (value i);
                     printf ("sensor init failed!" ++ nl)%string] L_storage
      else goto s [] L_storage
  | L_storage =>
      if MICROPY_VFS_FAT c && MICROPY_HW_USB_MSC c then
        if value i =? - MP_ENODEV c
        then goto s [rp2_flash_make_new;
                     mp_vfs_mount_and_chdir_protected (value i)] L_mkfs
        else goto s [rp2_flash_make_new;
                     mp_vfs_mount_and_chdir_protected (value i)] L_touch
      else goto s [pyexec_frozen_module "_boot.py"] L_touch
  | L_mkfs =>
      if value i =? 0
      then goto s [mp_fat_vfs_make_new; mp_init_filesystem (value i)] L_remount
      else goto s [mp_fat_vfs_make_new; mp_init_filesystem (value i)] L_touch
  | L_remount =>
      goto s [mp_vfs_mount_and_chdir_protected (value i)] L_touch
  | L_touch =>
      goto s [file_ll_touch ".openmv_disk"] L_tusb
  | L_tusb =>
      if truthy (value i) then goto s [tusb_inited true] L_boot_py
      else goto s [tusb_inited false; tusb_init;
                   irq_set_enabled (USBCTRL_IRQ c) false;
                   irq_get_vtable_handler (USBCTRL_IRQ c);
                   irq_remove_handler (USBCTRL_IRQ c);
                   irq_set_exclusive_handler (USBCTRL_IRQ c)] L_boot_py
  | L_boot_py =>
      (* bool interrupted = mp_exec_bootscript("boot.py", true, false); *)
      goto {| pc := pc s; first_soft_reset := first_soft_reset s;
              interrupted := truthy (value i); ide_irq := ide_irq s |}
           [mp_exec_bootscript "boot.py" (truthy (value i))] L_main_check
  | L_main_check =>
      if first_soft_reset s && negb (interrupted s) then
        if truthy (value i)
        then goto s [mp_vfs_import_stat "main.py" (value i)] L_main_py
        else goto s [mp_vfs_import_stat "main.py" (value i)] L_repl_check
      else goto s [] L_repl_check
  | L_main_py =>
      goto s [mp_exec_bootscript "main.py" (truthy (value i))] L_soft_reset_exit
  | L_repl_check =>
      if truthy (value i) then goto s [usbdbg_script_ready true] L_host_check
      else goto s [usbdbg_script_ready false] L_repl_push
  | L_repl_push =>
      if value i =? PYEXEC_MODE_RAW_REPL c
      then goto s [nlr_push; usbdbg_set_irq_enabled true] L_raw_repl
      else goto s [nlr_push; usbdbg_set_irq_enabled true] L_friendly_repl
  | L_raw_repl => repl_result s pyexec_raw_repl i
  | L_friendly_repl => repl_result s pyexec_friendly_repl i
  | L_host_check =>
      if truthy (value i) then goto s [usbdbg_script_ready true] L_host_run
      else goto s [usbdbg_script_ready false] L_soft_reset_exit
  | L_host_run =>
      match outcome_of i with
      | Returned v =>
          goto s [nlr_push; usbdbg_set_irq_enabled true; usbdbg_get_script;
                  pyexec_str (Returned v); usbdbg_set_irq_enabled false;
                  nlr_pop] L_busy_check
      | Raised =>
          goto s [nlr_push; usbdbg_set_irq_enabled true; usbdbg_get_script;
                  pyexec_str Raised; mp_obj_print_exception] L_busy_check
      end
  | L_busy_check =>
      if truthy (value i) then goto s [usbdbg_is_busy true] L_wait
      else goto s [usbdbg_is_busy false] L_soft_reset_exit
  | L_wait =>
      match outcome_of i with
      | Returned v =>
          goto s [nlr_push; usbdbg_set_irq_enabled true;
                  usbdbg_wait_for_command 1000 (Returned v);
                  usbdbg_set_irq_enabled false; nlr_pop] L_soft_reset_exit
      | Raised =>
          goto s [nlr_push; usbdbg_set_irq_enabled true;
                  usbdbg_wait_for_command 1000 Raised] L_soft_reset_exit
      end
  | L_soft_reset_exit =>
      (* first_soft_reset = false; goto soft_reset; *)
      goto {| pc := pc s; first_soft_reset := false;
              interrupted := interrupted s; ide_irq := ide_irq s |}
           (teardown_calls c) L_soft_reset
  | L_return => None
  end.

(** Execution driven by the environment's answers, one per step: the calls
    made and the state reached.  It stops early only where [step] has no
    successor. *)
Fixpoint run (c : config) (inputs : list resp) (s : state)
  : list call * state :=
  match inputs with
  | [] => ([], s)
  | i :: rest =>
      match step c s i with
      | None => ([], s)
      | Some (calls, s') =>
          let (t, s'') := run c rest s' in (calls ++ t, s'')
      end
  end.

(** The number of steps [run] takes before it stops. *)
Fixpoint steps_taken (c : config) (inputs : list resp) (s : state) : nat :=
  match inputs with
  | [] => O
  | i :: rest =>
      match step c s i with
      | None => O
      | Some (_, s') => S (steps_taken c rest s')
      end
  end.

(** *** Observations on traces *)

Definition is_main_py (e : call) : bool :=
  match e with
  | mp_exec_bootscript path _ => String.eqb path "main.py"
  | _ => false
  end.

Definition is_boot_py (reported : bool) (e : call) : bool :=
  match e with
  | mp_exec_bootscript path b => String.eqb path "boot.py" && Bool.eqb b reported
  | _ => false
  end.

(** The teardown phase announces itself with "MPY: soft reboot". *)
Definition is_soft_reboot (e : call) : bool :=
  match e with
  | mp_printf _ => true
  | _ => false
  end.

Definition count (p : call -> bool) (t : list call) : nat :=
  List.length (filter p t).

(** The part of a trace before the first soft reset. *)
Fixpoint first_cycle (t : list call) : list call :=
  match t with
  | [] => []
  | e :: t' => if is_soft_reboot e then [] else e :: first_cycle t'
  end.

(** The part of a trace from the first soft reset on. *)
Fixpoint later_cycles (t : list call) : list call :=
  match t with
  | [] => []
  | e :: t' => if is_soft_reboot e then t else later_cycles t'
  end.

(** Subsequence test: do calls satisfying the predicates [ps] occur in [t]
    in that order? *)
Fixpoint in_order (ps : list (call -> bool)) (t : list call) : bool :=
  match t with
  | [] => match ps with [] => true | _ :: _ => false end
  | e :: t' =>
      match ps with
      | [] => true
      | p :: ps' => if p e then in_order ps' t' else in_order ps t'
      end
  end.

Definition is_irq (enabled : bool) (e : call) : bool :=
  match e with
  | usbdbg_set_irq_enabled b => Bool.eqb b enabled
  | _ => false
  end.

Definition is_script (e : call) : bool :=
  match e with
  | pyexec_str _ => true
  | _ => false
  end.


(** *** Sub-systems and their init / deinit calls *)

Inductive subsystem : Type :=
  | Runtime | Readline | Pin | Pio | Dma | I2s | Bluetooth | Network
  | Pendsv | Usbdbg | FbAlloc | Framebuffer | Fir | Sensor | Tusb
  | Audio | Pwm.

(** The sub-system a call initialises, when the call is an init that
    succeeded.  Only [sensor_init] reports a result to [main]. *)
Definition init_ok (e : call) : option subsystem :=
  match e with
  | mp_init => Some Runtime
  | readline_init0 => Some Readline
  | machine_pin_init => Some Pin
  | rp2_pio_init => Some Pio
  | rp2_dma_init => Some Dma
  | machine_i2s_init0 => Some I2s
  | mp_bluetooth_hci_init => Some Bluetooth
  | mod_network_init => Some Network
  | pendsv_init => Some Pendsv
  | usbdbg_init => Some Usbdbg
  | fb_alloc_init0 => Some FbAlloc
  | framebuffer_init0 => Some Framebuffer
  | py_fir_init0 => Some Fir
  | sensor_init v => if v =? 0 then Some Sensor else None
  | tusb_init => Some Tusb
  | _ => None
  end.

(** The sub-system a call deinitialises. *)
Definition deinit_of (e : call) : option subsystem :=
  match e with
  | py_audio_deinit => Some Audio
  | mp_bluetooth_deinit => Some Bluetooth
  | mod_network_deinit => Some Network
  | rp2_pio_deinit => Some Pio
  | rp2_dma_deinit => Some Dma
  | machine_pwm_deinit_all => Some Pwm
  | machine_pin_deinit => Some Pin
  | mp_deinit => Some Runtime
  | _ => None
  end.

Definition collect (f : call -> option subsystem) (t : list call)
  : list subsystem :=
  flat_map (fun e => match f e with Some x => [x] | None => [] end) t.

(** The sub-systems the teardown phase deinitialises, in call order. *)
Definition torn_down (c : config) : list subsystem :=
  (if MICROPY_PY_AUDIO c then [Audio] else [])
  ++ (if MICROPY_PY_BLUETOOTH c then [Bluetooth] else [])
  ++ (if MICROPY_PY_NETWORK c then [Network] else [])
  ++ [Pio; Dma; Pwm; Pin; Runtime].

(** [n] copies of [l], one after the other. *)
Fixpoint times {A : Type} (n : nat) (l : list A) : list A :=
  match n with
  | O => []
  | S n' => l ++ times n' l
  end.

(** *** Statements of the specification that are compared with the code *)

(** Registry rule: the teardown deinitialises exactly the sub-systems whose
    init succeeded in the cycle, in the reverse of the init order. *)
Definition deinit_mirrors_init (cycle : list call) : Prop :=
  collect deinit_of cycle = rev (collect init_ok cycle).

(** Bracket symmetry of a guarded host-script run entered in [s]: the
    interrupt enable state after the run is the one before it, and a
    disable follows the script. *)
Definition bracket_symmetric (c : config) (s : state) (i : resp) : Prop :=
  match step c s i with
  | Some (calls, s') =>
      ide_irq s' = ide_irq s
      /\ in_order [is_script; is_irq false] calls = true
  | None => False
  end.


(** *** Bookkeeping for the one-shot main script *)

(** How many runs of main.py can still follow from [s]. *)
Definition main_budget (s : state) : nat :=
  match pc s with
  | L_entry | L_main_py => 1
  | L_soft_reset | L_sensor_init | L_storage | L_mkfs | L_remount
  | L_touch | L_tusb | L_boot_py =>
      if first_soft_reset s then 1 else 0
  | L_main_check =>
      if first_soft_reset s && negb (interrupted s) then 1 else 0
  | _ => 0
  end%nat.

(** What holds of the trace so far and the state reached, along every
    execution from power-on. *)
Definition one_shot_inv (t : list call) (s : state) : Prop :=
  (count is_main_py t + main_budget s <= 1)%nat
  /\ (count is_soft_reboot t <> 0%nat -> main_budget s = 0%nat)
  /\ (count (is_boot_py true) t <> 0%nat -> main_budget s = 0%nat)
  /\ (count is_soft_reboot t = 0%nat ->
      pc s = L_entry \/ first_soft_reset s = true)
  /\ count is_main_py (later_cycles t) = 0%nat
  /\ (count (is_boot_py true) (first_cycle t) <> 0%nat ->
      count is_main_py t = 0%nat)
  /\ (pc s = L_main_py ->
      first_soft_reset s = true /\ interrupted s = false).

(** A configuration to evaluate the model on: every optional sub-system
    compiled in, FAT filesystem on flash, USB REPL. *)
Definition sample_config : config :=
  {| MICROPY_HW_ENABLE_UART_REPL := false;
     NDEBUG := true;
     MICROPY_PY_THREAD := true;
     MICROPY_PY_BLUETOOTH := true;
     MICROPY_PY_NETWORK := true;
     MICROPY_PY_SENSOR := true;
     MICROPY_VFS_FAT := true;
     MICROPY_HW_USB_MSC := true;
     MICROPY_PY_AUDIO := true;
     MP_ENODEV := 19;
     PYEXEC_MODE_RAW_REPL := 1;
     USBCTRL_IRQ := 5 |}.

(** A state at program point [l] of the first cycle. *)
Definition at_label (l : label) (irq : bool) : state :=
  {| pc := l; first_soft_reset := true; interrupted := false; ide_irq := irq |}.

End Lifecycle.

(* ------------------------------------------------------------------------- *)
(** ** Further observations on the entropy source *)

Module RoscObs.

Import Rosc.

(** Bitwise XOR of two sample sequences. *)
Definition xor_bits (a b : list bool) : list bool :=
  map (fun p => xorb (fst p) (snd p)) (combine a b).

(** The byte [rosc_random_u8] returns after [cycles] samples. *)
Definition byte_after (randombit : nat -> bool) (cycles : nat) (h : hw) : Z :=
  fst (rosc_random_u8 randombit cycles h).

(** The oscillator reads zero at every sample of a call of [cycles]
    iterations entered in [h]. *)
Definition silent (randombit : nat -> bool) (cycles : nat) (h : hw) : Prop :=
  forall k, (reads h <= k < reads h + cycles)%nat -> randombit k = false.

(** An oscillator stub whose random bit is stuck at zero. *)
Definition stuck_at_zero : nat -> bool := fun _ => false.

(** An oscillator stub that alternates, starting with one. *)
Definition alternating : nat -> bool := fun n => Nat.even n.

End RoscObs.

(* ------------------------------------------------------------------------- *)
(** ** Uncaught exceptions: [nlr_jump_fail] (main.c, lines 290-296) *)

Module Jump.

(** The calls the function makes; [val] is the exception pointer. *)
Inductive call : Type :=
  | printf (format : string) (val : Z)
  | mp_obj_print_exception (val : Z)
  | breakpoint.

(** Program points; [L_end] is the closing brace at line 296. *)
Inductive label : Type :=
  | L_printf           (* line 291 *)
  | L_print_exception  (* line 292 *)
  | L_breakpoint       (* line 294 *)
  | L_end.             (* line 296 *)

Definition fatal_format : string :=
  ("FATAL: uncaught exception %p" ++ Lifecycle.nl)%string.

(** One statement; [for (;;)] has no test, so line 294 follows itself. *)
Definition step (val : Z) (l : label) : option (call * label) :=
  match l with
  | L_printf => Some (printf fatal_format val, L_print_exception)
  | L_print_exception => Some (mp_obj_print_exception val, L_breakpoint)
  | L_breakpoint => Some (breakpoint, L_breakpoint)
  | L_end => None
  end.

Fixpoint run (val : Z) (n : nat) (l : label) : list call * label :=
  match n with
  | O => ([], l)
  | S n' =>
      match step val l with
      | None => ([], l)
      | Some (c, l') => let (t, l'') := run val n' l' in (c :: t, l'')
      end
  end.

End Jump.

(* ------------------------------------------------------------------------- *)
(** ** Further observations on the lifecycle *)

Module Accounting.

Import Lifecycle.

(** The calls made before the [soft_reset] label. *)
Definition is_boot_call (e : call) : bool :=
  match e with
  | setup_default_uart | mp_uart_init | stdio_init_all | mp_thread_init
  | rtc_init | rtc_set_datetime | mp_hal_time_ns_set_from_rtc
  | pico_get_unique_board_id => true
  | _ => false
  end.

Definition subsystem_eq_dec (x y : subsystem) : {x = y} + {x <> y}.
Proof. decide equality. Defined.

(** How often sub-system [x] occurs in a list of sub-systems. *)
Definition occurrences (x : subsystem) (l : list subsystem) : nat :=
  count_occ subsystem_eq_dec l x.

(** The sub-systems that have both an init call in the bring-up and a
    deinit call in the teardown. *)
Definition paired : list subsystem :=
  [Runtime; Pin; Pio; Dma; Bluetooth; Network].

(** Is sub-system [x] brought up at [soft_reset] under configuration [c]? *)
Definition brought_up (c : config) (x : subsystem) : bool :=
  match x with
  | Runtime | Pin | Pio | Dma => true
  | Bluetooth => MICROPY_PY_BLUETOOTH c
  | Network => MICROPY_PY_NETWORK c
  | _ => false
  end.

(** Program points between the bring-up and the teardown of a cycle. *)
Definition running (l : label) : bool :=
  match l with
  | L_entry | L_soft_reset | L_return => false
  | _ => true
  end.

(** Program points of a cycle after the call that runs boot.py. *)
Definition after_boot_py (l : label) : bool :=
  match l with
  | L_main_check | L_main_py | L_repl_check | L_repl_push | L_raw_repl
  | L_friendly_repl | L_host_check | L_host_run | L_busy_check | L_wait
  | L_soft_reset_exit => true
  | _ => false
  end.

(** Program points before the REPL loop. *)
Definition before_repl (l : label) : bool :=
  match l with
  | L_entry | L_soft_reset | L_sensor_init | L_storage | L_mkfs | L_remount
  | L_touch | L_tusb | L_boot_py | L_main_check | L_main_py => true
  | _ => false
  end.

(** The calls made inside an [nlr_push] region that run foreign code. *)
Definition is_guarded (e : call) : bool :=
  match e with
  | pyexec_raw_repl _ | pyexec_friendly_repl _ | pyexec_str _
  | usbdbg_wait_for_command _ _ => true
  | _ => false
  end.

(** Does every guarded call of [t] find the IDE interrupt enabled, when the
    interrupt state before [t] is [irq]? *)
Fixpoint guarded_enabled (irq : bool) (t : list call) : bool :=
  match t with
  | [] => true
  | e :: t' =>
      (if is_guarded e then irq else true)
      && guarded_enabled (irq_effect irq e) t'
  end.

Definition is_sensor_failure (e : call) : bool :=
  match e with
  | sensor_init v => negb (v =? 0)
  | _ => false
  end.

Definition is_printf (e : call) : bool :=
  match e with
  | printf _ => true
  | _ => false
  end.

(** The calls of the interactive part of a cycle, lines 221-266. *)
Definition is_interactive (e : call) : bool :=
  match e with
  | usbdbg_script_ready _ | nlr_push | nlr_pop | usbdbg_set_irq_enabled _
  | pyexec_raw_repl _ | pyexec_friendly_repl _ | usbdbg_get_script
  | pyexec_str _ | mp_obj_print_exception | usbdbg_is_busy _
  | usbdbg_wait_for_command _ _ => true
  | _ => false
  end.

Definition is_nlr_push (e : call) : bool :=
  match e with nlr_push => true | _ => false end.

Definition is_nlr_pop (e : call) : bool :=
  match e with nlr_pop => true | _ => false end.

(** A guarded call that left by an exception. *)
Definition is_raised (e : call) : bool :=
  match e with
  | pyexec_raw_repl Raised | pyexec_friendly_repl Raised | pyexec_str Raised
  | usbdbg_wait_for_command _ Raised => true
  | _ => false
  end.

(** A REPL that returned nonzero: the [break] of lines 231 and 235. *)
Definition is_repl_exit (e : call) : bool :=
  match e with
  | pyexec_raw_repl (Returned v) | pyexec_friendly_repl (Returned v) =>
      truthy v
  | _ => false
  end.

Definition in_repl (l : label) : bool :=
  match l with
  | L_raw_repl | L_friendly_repl => true
  | _ => false
  end.




Definition is_mount (e : call) : bool :=
  match e with mp_vfs_mount_and_chdir_protected _ => true | _ => false end.

Definition is_mount_enodev (c : config) (e : call) : bool :=
  match e with
  | mp_vfs_mount_and_chdir_protected v => v =? - MP_ENODEV c
  | _ => false
  end.

Definition is_flash_new (e : call) : bool :=
  match e with rp2_flash_make_new => true | _ => false end.

Definition is_fat_new (e : call) : bool :=
  match e with mp_fat_vfs_make_new => true | _ => false end.

Definition is_mkfs (e : call) : bool :=
  match e with mp_init_filesystem _ => true | _ => false end.

Definition is_mkfs_ok (e : call) : bool :=
  match e with mp_init_filesystem v => v =? 0 | _ => false end.

Definition at_remount (l : label) : bool :=
  match l with L_remount => true | _ => false end.

Definition at_mkfs (l : label) : bool :=
  match l with L_mkfs => true | _ => false end.


Definition is_stat (e : call) : bool :=
  match e with mp_vfs_import_stat _ _ => true | _ => false end.

(** A stat that found the file. *)
Definition is_stat_found (e : call) : bool :=
  match e with mp_vfs_import_stat _ v => truthy v | _ => false end.

Definition at_main_py (l : label) : bool :=
  match l with L_main_py => true | _ => false end.

(** How many stats of main.py can still follow from [s]. *)
Definition stat_budget (s : state) : nat :=
  if at_main_py (pc s) then 0%nat else main_budget s.



End Accounting.

(* ------------------------------------------------------------------------- *)
(** * Properties of the entropy source *)

Module RoscSpec.

Import Rosc.

(** Hand traces of the shift/XOR rule: with the random bit stuck at one the
    register fills with ones, and the ninth sample shifts a one out of the
    top, 0x1FF xor 0xD5 = 0x12A, stored as 0x2A. *)
Example rosc_random_u8_stuck_at_one :
  map (fun n => fst (rosc_random_u8 stuck_at_one n power_on)) (seq 0 10)
  = [0; 1; 3; 7; 15; 31; 63; 127; 255; 42].
Proof. vm_compute. reflexivity. Qed.

(** An oscillator that never jitters from zero yields the word 0, twice. *)
Example rosc_random_u32_silent_oscillator :
  fst (rosc_random_u32 (fun _ => false) power_on) = 0
  /\ fst (rosc_random_u32 (fun _ => false)
            (snd (rosc_random_u32 (fun _ => false) power_on))) = 0.
Proof. split; vm_compute; reflexivity. Qed.

(** A property checked on the 256 byte values holds of every [uint8_t]. *)
Lemma forall_bytes (P : Z -> bool) :
  forallb P bytes = true -> forall x, is_u8 x -> P x = true.
Proof.
  intros Hall x [Hlo Hhi].
  rewrite forallb_forall in Hall. apply Hall.
  unfold bytes. apply in_map_iff. exists (Z.to_nat x). split.
  - apply Z2Nat.id; assumption.
  - apply in_seq. split; [lia|].
    change (0 + 256)%nat with (Z.to_nat 256). apply Z2Nat.inj_lt; lia.
Qed.

Lemma mix_is_u8 (a b : Z) : is_u8 (mix a b).
Proof.
  unfold mix, to_u8, is_u8. change (2 ^ 8) with 256.
  apply Z.mod_pos_bound. lia.
Qed.

(** Line 310 computes the step the specification describes. *)
Lemma mix_refines_spec (a : Z) (b : bool) :
  is_u8 a -> mix a (Z.b2z b) = spec_mix a b.
Proof.
  intros Ha. apply Z.eqb_eq.
  revert a Ha. destruct b; apply forall_bytes; vm_compute; reflexivity.
Qed.

Lemma spec_mix_is_u8 (a : Z) (b : bool) : is_u8 a -> is_u8 (spec_mix a b).
Proof.
  intros Ha. rewrite <- mix_refines_spec by assumption. apply mix_is_u8.
Qed.

Lemma spec_unmix_mix (a : Z) (b : bool) :
  is_u8 a -> spec_unmix (spec_mix a b) b = a.
Proof.
  intros Ha. apply Z.eqb_eq.
  revert a Ha. destruct b; apply forall_bytes; vm_compute; reflexivity.
Qed.

Lemma spec_mix_injective (a1 a2 : Z) (b : bool) :
  is_u8 a1 -> is_u8 a2 -> spec_mix a1 b = spec_mix a2 b -> a1 = a2.
Proof.
  intros H1 H2 Heq.
  rewrite <- (spec_unmix_mix a1 b H1), <- (spec_unmix_mix a2 b H2).
  now rewrite Heq.
Qed.

Lemma fold_spec_mix_injective (bs : list bool) :
  forall a1 a2, is_u8 a1 -> is_u8 a2 ->
  fold_left spec_mix bs a1 = fold_left spec_mix bs a2 -> a1 = a2.
Proof.
  induction bs as [|b bs IH]; intros a1 a2 H1 H2 Heq; simpl in Heq.
  - exact Heq.
  - apply (spec_mix_injective a1 a2 b H1 H2).
    apply IH; auto using spec_mix_is_u8.
Qed.

Section Loop.

Variable randombit : nat -> bool.

Lemma samples_succ (n : nat) (h : hw) :
  samples randombit (S n) h
  = randombit (reads h) :: samples randombit n (loop_body randombit h).
Proof. reflexivity. Qed.

(** The loop as a left fold over the samples it reads. *)
Lemma for_loop_fold (n : nat) :
  forall h, is_u8 (r h) ->
  r (for_loop randombit n h) = fold_left spec_mix (samples randombit n h) (r h).
Proof.
  induction n as [|n IH]; intros h Hh.
  - reflexivity.
  - rewrite samples_succ. cbn [for_loop fold_left].
    rewrite IH by (apply mix_is_u8).
    cbn [loop_body r]. now rewrite mix_refines_spec.
Qed.

Lemma for_loop_log (n : nat) :
  forall h,
  log (for_loop randombit n h)
  = log h ++ flat_map sample_log (samples randombit n h).
Proof.
  induction n as [|n IH]; intros h.
  - cbn. now rewrite app_nil_r.
  - rewrite samples_succ. cbn [for_loop flat_map].
    rewrite IH. cbn [loop_body log]. rewrite <- app_assoc. reflexivity.
Qed.

Lemma for_loop_reads (n : nat) :
  forall h, reads (for_loop randombit n h) = (reads h + n)%nat.
Proof.
  induction n as [|n IH]; intros h; cbn [for_loop].
  - lia.
  - rewrite IH. cbn. lia.
Qed.

Lemma for_loop_is_u8 (n : nat) :
  forall h, is_u8 (r h) -> is_u8 (r (for_loop randombit n h)).
Proof.
  induction n as [|n IH]; intros h Hh; cbn [for_loop].
  - exact Hh.
  - apply IH. apply mix_is_u8.
Qed.

End Loop.

(** C5. For every [cycles] and every sequence of sampled bits,
    [rosc_random_u8] returns the accumulator's entry value pushed through
    the specification's step (shift left, sampled bit into the low position,
    XOR 0xD5 when the old top bit was set) once per sample, in sampling
    order; it reads exactly [cycles] samples, and each sample is followed by
    one [mp_hal_delay_us_fast(1)] before the next is read. *)
Theorem rosc_random_u8_iterates_mix :
  forall (randombit : nat -> bool) (cycles : nat) (h : hw),
  is_u8 (r h) ->
  fst (rosc_random_u8 randombit cycles h)
  = fold_left spec_mix (samples randombit cycles h) (r h)
  /\ List.length (samples randombit cycles h) = cycles
  /\ log (snd (rosc_random_u8 randombit cycles h))
     = log h ++ flat_map (fun b => [RandomBit b; DelayUsFast 1])
                         (samples randombit cycles h).
Proof.
  intros osc n h Hh. unfold rosc_random_u8. cbn [fst snd].
  split; [|split].
  - now apply for_loop_fold.
  - unfold samples. now rewrite length_map, length_seq.
  - apply for_loop_log.
Qed.

Lemma rosc_random_u8_iterates_mix_witness :
  is_u8 (r power_on)
  /\ fst (rosc_random_u8 stuck_at_one 9 power_on)
     = fold_left spec_mix (samples stuck_at_one 9 power_on) (r power_on).
Proof.
  assert (H : is_u8 (r power_on)) by (unfold is_u8; simpl; lia).
  split; [exact H|].
  exact (proj1 (rosc_random_u8_iterates_mix stuck_at_one 9 power_on H)).
Defined.

(** C6, as the specification states it, fails: two calls with the same
    [cycles] that sample the same bits return different bytes when one of
    them comes after another call. *)
Lemma accumulator_persists_between_calls :
  samples stuck_at_one 1 power_on
  = samples stuck_at_one 1 (snd (rosc_random_u8 stuck_at_one 1 power_on))
  /\ fst (rosc_random_u8 stuck_at_one 1 power_on) = 1
  /\ fst (rosc_random_u8 stuck_at_one 1
            (snd (rosc_random_u8 stuck_at_one 1 power_on))) = 3
  /\ fst (rosc_random_u8 stuck_at_one 1 power_on)
     <> fst (rosc_random_u8 stuck_at_one 1
               (snd (rosc_random_u8 stuck_at_one 1 power_on))).
Proof.
  repeat split; try reflexivity. vm_compute. discriminate.
Qed.

(** C6, amended. The byte returned is determined by the accumulator's value
    on entry together with the samples: two calls with the same [cycles]
    and the same sampled bits return the same byte exactly when the static
    accumulator held the same value on entry; and the accumulator is left
    holding the returned byte for the next call. *)
Theorem rosc_random_u8_depends_on_entry_value :
  forall (osc1 osc2 : nat -> bool) (cycles : nat) (h1 h2 : hw),
  is_u8 (r h1) -> is_u8 (r h2) ->
  samples osc1 cycles h1 = samples osc2 cycles h2 ->
  (fst (rosc_random_u8 osc1 cycles h1) = fst (rosc_random_u8 osc2 cycles h2)
   <-> r h1 = r h2)
  /\ r (snd (rosc_random_u8 osc1 cycles h1)) = fst (rosc_random_u8 osc1 cycles h1).
Proof.
  intros osc1 osc2 n h1 h2 H1 H2 Hs. unfold rosc_random_u8. cbn [fst snd].
  split; [|reflexivity].
  rewrite !for_loop_fold by assumption. rewrite Hs. split.
  - now apply fold_spec_mix_injective.
  - intros ->. reflexivity.
Qed.

Lemma rosc_random_u8_depends_on_entry_value_witness :
  fst (rosc_random_u8 stuck_at_one 8 power_on)
  = fst (rosc_random_u8 stuck_at_one 8
           (snd (rosc_random_u8 stuck_at_one 3 power_on)))
  <-> r power_on = r (snd (rosc_random_u8 stuck_at_one 3 power_on)).
Proof.
  refine (proj1 (rosc_random_u8_depends_on_entry_value stuck_at_one
                   stuck_at_one 8 power_on _ _ _ _)).
  - unfold is_u8; simpl; lia.
  - unfold is_u8; split; [vm_compute; discriminate | vm_compute; reflexivity].
  - reflexivity.
Defined.

(** C10. With [cycles = 0] the routine reads no sample and makes no delay
    call, and returns the accumulator as it found it: 0 on the first call
    after power-on, and otherwise the byte the previous call returned. *)
Theorem rosc_random_u8_zero_cycles :
  forall (randombit : nat -> bool) (h : hw),
  rosc_random_u8 randombit 0 h = (r h, h)
  /\ fst (rosc_random_u8 randombit 0 power_on) = 0
  /\ forall (previous : nat),
       fst (rosc_random_u8 randombit 0
              (snd (rosc_random_u8 randombit previous h)))
       = fst (rosc_random_u8 randombit previous h).
Proof.
  intros osc h. repeat split.
Qed.

End RoscSpec.

(* ------------------------------------------------------------------------- *)
(** * Properties of the fatal handler *)

Module FatalSpec.

Import Fatal.

Section Board.

Variable pin : Z.

Lemma run_one_period (n : nat) :
  run pin (4 + n) L_led_on
  = (blink pin ++ fst (run pin n L_led_on), snd (run pin n L_led_on)).
Proof.
  cbn [Nat.add run step]. destruct (run pin n L_led_on). reflexivity.
Qed.

Lemma run_periods (n : nat) :
  run pin (4 * n) L_led_on = (blinks pin n, L_led_on).
Proof.
  induction n as [|n IH].
  - reflexivity.
  - replace (4 * S n)%nat with (4 + 4 * n)%nat by lia.
    rewrite run_one_period, IH. reflexivity.
Qed.

Lemma run_never_ends (k : nat) :
  forall l, l <> L_end ->
  snd (run pin k l) <> L_end /\ List.length (fst (run pin k l)) = k.
Proof.
  induction k as [|k IH]; intros l Hl.
  - split; [exact Hl | reflexivity].
  - destruct l; try contradiction; cbn [run step];
      match goal with
      | |- context [run pin k ?l'] =>
          destruct (IH l' ltac:(discriminate)) as [Hend Hlen];
          destruct (run pin k l') as [t lf]
      end; cbn [fst snd List.length] in *; split; congruence.
Qed.

End Board.

(** C8. Once entered, [__fatal_error] never reaches its end, so it never
    returns to its caller: for every number of statements executed the
    handler is still running.  After configuring the LED pin as an output it
    repeats, without end, LED on, [sleep_ms(100)], LED off,
    [sleep_ms(100)]. *)
Theorem fatal_error_blinks_forever :
  forall (OMV_LED_PIN : Z) (n : nat),
  run OMV_LED_PIN (2 + 4 * n) L_gpio_init
  = (prologue OMV_LED_PIN ++ blinks OMV_LED_PIN n, L_led_on)
  /\ snd (run OMV_LED_PIN n L_gpio_init) <> L_end
  /\ List.length (fst (run OMV_LED_PIN n L_gpio_init)) = n
  /\ step OMV_LED_PIN L_end = None.
Proof.
  intros pin n. split; [|split; [|split]].
  - change (2 + 4 * n)%nat with (S (S (4 * n))).
    cbn [run step]. rewrite run_periods. reflexivity.
  - apply run_never_ends. discriminate.
  - apply run_never_ends. discriminate.
  - reflexivity.
Qed.

End FatalSpec.

(* ------------------------------------------------------------------------- *)
(** * Properties of the lifecycle *)

Module LifecycleSpec.

Import Lifecycle.

(** A power-on with main.py on the filesystem runs it in the first cycle
    and goes straight to the teardown. *)
Example first_cycle_with_main_py :
  run sample_config
    [ret 0; ret 0; ret 0; ret 0; ret 0; ret 1; ret 0; ret 1; ret 0]
    (power_on false)
  = (boot_calls sample_config
     ++ runtime_init_calls ++ init_subsystems sample_config
     ++ [sensor_init 0;
         rp2_flash_make_new; mp_vfs_mount_and_chdir_protected 0;
         file_ll_touch ".openmv_disk";
         tusb_inited true;
         mp_exec_bootscript "boot.py" false;
         mp_vfs_import_stat "main.py" 1;
         mp_exec_bootscript "main.py" false],
     at_label L_soft_reset_exit false).
Proof. reflexivity. Qed.

(** A REPL turn ended by an exception, then a host script that ends by an
    exception while the channel is idle: the cycle reaches the teardown
    with the IDE interrupt still enabled. *)
Example faulting_host_script_reaches_teardown :
  snd (run sample_config [ret 0; ret 0; raise; ret 1; ret 1; raise; ret 0]
         (at_label L_repl_check false))
  = at_label L_soft_reset_exit true.
Proof. reflexivity. Qed.

(** *** Counting in traces *)

Lemma count_app (p : call -> bool) (a b : list call) :
  count p (a ++ b) = (count p a + count p b)%nat.
Proof. unfold count. now rewrite filter_app, length_app. Qed.

Lemma count_boot_calls (c : config) :
  count is_main_py (boot_calls c) = 0%nat
  /\ count is_soft_reboot (boot_calls c) = 0%nat
  /\ count (is_boot_py true) (boot_calls c) = 0%nat.
Proof.
  unfold boot_calls.
  destruct (MICROPY_HW_ENABLE_UART_REPL c), (NDEBUG c), (MICROPY_PY_THREAD c);
    repeat split.
Qed.

Lemma count_init_subsystems (c : config) :
  count is_main_py (init_subsystems c) = 0%nat
  /\ count is_soft_reboot (init_subsystems c) = 0%nat
  /\ count (is_boot_py true) (init_subsystems c) = 0%nat.
Proof.
  unfold init_subsystems.
  destruct (MICROPY_PY_BLUETOOTH c), (MICROPY_PY_NETWORK c); repeat split.
Qed.

Lemma count_teardown_calls (c : config) :
  count is_main_py (teardown_calls c) = 0%nat
  /\ count is_soft_reboot (teardown_calls c) = 1%nat
  /\ count (is_boot_py true) (teardown_calls c) = 0%nat.
Proof.
  unfold teardown_calls.
  destruct (MICROPY_PY_AUDIO c), (MICROPY_PY_BLUETOOTH c),
    (MICROPY_PY_NETWORK c); repeat split.
Qed.

Lemma first_cycle_all (t : list call) :
  count is_soft_reboot t = 0%nat -> first_cycle t = t.
Proof.
  induction t as [|e t IH]; [reflexivity|].
  unfold count in *. cbn [filter first_cycle].
  destruct (is_soft_reboot e); cbn [List.length]; [discriminate|].
  intros H. now rewrite IH.
Qed.

Lemma later_cycles_none (t : list call) :
  count is_soft_reboot t = 0%nat -> later_cycles t = [].
Proof.
  induction t as [|e t IH]; [reflexivity|].
  unfold count in *. cbn [filter later_cycles].
  destruct (is_soft_reboot e); cbn [List.length]; [discriminate|].
  exact IH.
Qed.

Lemma first_cycle_app (t u : list call) :
  first_cycle (t ++ u)
  = if (count is_soft_reboot t =? 0)%nat then t ++ first_cycle u
    else first_cycle t.
Proof.
  induction t as [|e t IH]; [reflexivity|].
  unfold count in *. cbn [app filter first_cycle].
  destruct (is_soft_reboot e); cbn [List.length Nat.eqb]; [reflexivity|].
  rewrite IH. now destruct (List.length (filter is_soft_reboot t) =? 0)%nat.
Qed.

Lemma later_cycles_app (t u : list call) :
  later_cycles (t ++ u)
  = if (count is_soft_reboot t =? 0)%nat then later_cycles u
    else later_cycles t ++ u.
Proof.
  induction t as [|e t IH]; [reflexivity|].
  unfold count in *. cbn [app filter later_cycles].
  destruct (is_soft_reboot e); cbn [List.length Nat.eqb]; [reflexivity|].
  exact IH.
Qed.

Lemma count_first_cycle_le (p : call -> bool) (t : list call) :
  (count p (first_cycle t) <= count p t)%nat.
Proof.
  induction t as [|e t IH]; [apply le_n|].
  unfold count in *. cbn [first_cycle].
  destruct (is_soft_reboot e); cbn [filter]; destruct (p e);
    cbn [List.length]; lia.
Qed.

Lemma count_later_cycles_le (p : call -> bool) (t : list call) :
  (count p (later_cycles t) <= count p t)%nat.
Proof.
  induction t as [|e t IH]; [apply le_n|].
  unfold count in *. cbn [later_cycles].
  destruct (is_soft_reboot e); [apply le_n|].
  cbn [filter]. destruct (p e); cbn [List.length]; lia.
Qed.

(** *** Executions *)

(** A property of the trace so far and the state reached that every step
    preserves holds along every execution. *)
Lemma run_invariant (c : config) (Inv : list call -> state -> Prop) :
  (forall t s i calls s',
     Inv t s -> step c s i = Some (calls, s') -> Inv (t ++ calls) s') ->
  forall inputs t s,
  Inv t s -> Inv (t ++ fst (run c inputs s)) (snd (run c inputs s)).
Proof.
  intros Hstep inputs.
  induction inputs as [|i rest IH]; intros t s HI; cbn [run].
  - cbn. now rewrite app_nil_r.
  - destruct (step c s i) as [[calls s']|] eqn:Hs.
    + specialize (IH (t ++ calls) s' (Hstep _ _ _ _ _ HI Hs)).
      destruct (run c rest s') as [t' sf]. cbn [fst snd] in *.
      now rewrite app_assoc.
    + cbn. now rewrite app_nil_r.
Qed.

Lemma Some_pair_inv {A B : Type} (a a' : A) (b b' : B) :
  Some (a, b) = Some (a', b') -> a = a' /\ b = b'.
Proof. intros H. injection H as -> ->. now split. Qed.

(** Case analysis on the step taken. *)
Ltac step_cases H :=
  unfold step, repl_result, goto in H;
  cbn [pc first_soft_reset interrupted ide_irq] in H;
  repeat match type of H with
    | context [match ?x with _ => _ end] =>
        destruct x eqn:?; cbv beta match in H
    end;
  first [discriminate H | apply Some_pair_inv in H; destruct H as [<- <-]].

Lemma count_runtime_init_calls :
  count is_main_py runtime_init_calls = 0%nat
  /\ count is_soft_reboot runtime_init_calls = 0%nat
  /\ count (is_boot_py true) runtime_init_calls = 0%nat.
Proof. repeat split. Qed.

(** What one step does to the bookkeeping of the main script. *)
Lemma step_facts (c : config) (s s' : state) (i : resp) (calls : list call) :
  step c s i = Some (calls, s') ->
  (count is_main_py calls + main_budget s' <= main_budget s)%nat
  /\ (count is_soft_reboot calls <> 0%nat -> main_budget s' = 0%nat)
  /\ (count (is_boot_py true) calls <> 0%nat ->
      main_budget s' = 0%nat /\ pc s = L_boot_py
      /\ count is_main_py calls = 0%nat)
  /\ (count is_soft_reboot calls = 0%nat ->
      pc s = L_entry \/ first_soft_reset s = true ->
      first_soft_reset s' = true)
  /\ (count is_main_py calls = 0%nat \/ count is_soft_reboot calls = 0%nat)
  /\ (pc s' = L_main_py ->
      first_soft_reset s' = true /\ interrupted s' = false)
  /\ pc s' <> L_entry
  /\ pc s' <> L_return.
Proof.
  intros H.
  pose proof (count_boot_calls c) as (B1 & B2 & B3).
  pose proof (count_runtime_init_calls) as (R1 & R2 & R3).
  pose proof (count_init_subsystems c) as (N1 & N2 & N3).
  pose proof (count_teardown_calls c) as (T1 & T2 & T3).
  destruct s as [l fsr intr irq].
  step_cases H; unfold main_budget;
    cbn [pc first_soft_reset interrupted];
    rewrite ?count_app, ?B1, ?B2, ?B3, ?R1, ?R2, ?R3, ?N1, ?N2, ?N3,
      ?T1, ?T2, ?T3;
    try (destruct (truthy (value i)));
    destruct fsr, intr; cbn in *;
    repeat split; intros; try discriminate; try lia; try tauto; auto;
    intuition discriminate.
Qed.

Lemma one_shot_inv_step (c : config) (t : list call) (s s' : state)
  (i : resp) (calls : list call) :
  one_shot_inv t s -> step c s i = Some (calls, s') ->
  one_shot_inv (t ++ calls) s'.
Proof.
  intros (I1 & I2 & I3 & I4 & I5 & I6 & I7) Hs.
  destruct (step_facts c s s' i calls Hs)
    as (S1 & S2 & S3 & S4 & S5 & S6 & S7 & _).
  pose proof (count_first_cycle_le (is_boot_py true) calls) as Hfc.
  assert (Hlc : count is_main_py (later_cycles calls) = 0%nat).
  { destruct S5 as [S5|S5].
    - pose proof (count_later_cycles_le is_main_py calls). lia.
    - now rewrite (later_cycles_none calls S5). }
  unfold one_shot_inv.
  rewrite !count_app, first_cycle_app, later_cycles_app.
  destruct (count is_soft_reboot t =? 0)%nat eqn:Hrb;
    [apply Nat.eqb_eq in Hrb | apply Nat.eqb_neq in Hrb].
  - (* still in the first cycle *)
    rewrite count_app. rewrite (first_cycle_all t Hrb) in I6.
    destruct (Nat.eq_dec (count (is_boot_py true) calls) 0) as [Hb|Hb].
    + assert (Hpre : count (is_boot_py true) t <> 0%nat ->
                     main_budget s = 0%nat /\ count is_main_py t = 0%nat)
        by auto.
      repeat split; try exact Hlc; try tauto; try lia.
      intros H. right. apply S4; [lia|]. apply I4. lia.
    + destruct (S3 Hb) as (Hbud & Hpc & Hnomain).
      destruct (I4 Hrb) as [He|Hf]; [congruence|].
      assert (Hone : main_budget s = 1%nat).
      { unfold main_budget. now rewrite Hpc, Hf. }
      repeat split; try exact Hlc; try tauto; try lia.
      intros H. right. apply S4; [lia|]. now right.
  - (* after a soft reset *)
    specialize (I2 Hrb).
    repeat split; try tauto; try lia.
    rewrite count_app. lia.
Qed.

Lemma one_shot_inv_power_on (irq : bool) : one_shot_inv [] (power_on irq).
Proof.
  unfold one_shot_inv, power_on. cbn.
  repeat split; auto; try discriminate; try lia; intros H; congruence.
Qed.

Lemma one_shot_inv_run (c : config) (irq : bool) (inputs : list resp) :
  one_shot_inv (fst (run c inputs (power_on irq)))
               (snd (run c inputs (power_on irq))).
Proof.
  apply (run_invariant c one_shot_inv) with (t := []).
  - intros t s i calls s'. apply one_shot_inv_step.
  - apply one_shot_inv_power_on.
Qed.

(** C1. Along every execution from power-on, main.py is executed at most
    once; it is never executed after a soft reset; it is not executed at
    all when boot.py, in the first cycle, reported an interruption; and
    whenever control stands at the call that runs main.py,
    [first_soft_reset] is true and [interrupted] is false. *)
Theorem main_py_runs_at_most_once :
  forall (c : config) (irq : bool) (inputs : list resp),
  (count is_main_py (fst (run c inputs (power_on irq))) <= 1)%nat
  /\ count is_main_py (later_cycles (fst (run c inputs (power_on irq)))) = 0%nat
  /\ (count (is_boot_py true)
        (first_cycle (fst (run c inputs (power_on irq)))) <> 0%nat ->
      count is_main_py (fst (run c inputs (power_on irq))) = 0%nat)
  /\ (pc (snd (run c inputs (power_on irq))) = L_main_py ->
      first_soft_reset (snd (run c inputs (power_on irq))) = true
      /\ interrupted (snd (run c inputs (power_on irq))) = false).
Proof.
  intros c irq inputs.
  destruct (one_shot_inv_run c irq inputs) as (I1 & _ & _ & _ & I5 & I6 & I7).
  repeat split; try tauto; lia.
Qed.


Lemma main_py_runs_at_most_once_witness :
  count is_main_py
    (fst (run sample_config
            [ret 0; ret 0; ret 0; ret 0; ret 0; ret 0; ret 1; ret 1; ret 0;
             ret 0; ret 0]
            (power_on false))) = 0%nat.
Proof.
  apply (proj1 (proj2 (proj2 (main_py_runs_at_most_once sample_config false
    [ret 0; ret 0; ret 0; ret 0; ret 0; ret 0; ret 1; ret 1; ret 0;
     ret 0; ret 0])))).
  vm_compute. discriminate.
Defined.

(** *** The loop never ends *)

Lemma step_total (c : config) (s : state) (i : resp) :
  pc s <> L_return -> exists calls s', step c s i = Some (calls, s').
Proof.
  intros Hpc. unfold step, repl_result, goto.
  destruct (pc s); try contradiction;
    repeat match goal with
      | |- context [match ?x with _ => _ end] => destruct x
      end; eauto.
Qed.

Lemma run_never_returns (c : config) (inputs : list resp) :
  forall s, pc s <> L_return ->
  steps_taken c inputs s = List.length inputs
  /\ pc (snd (run c inputs s)) <> L_return.
Proof.
  induction inputs as [|i rest IH]; intros s Hpc; cbn [steps_taken run].
  - split; [reflexivity | exact Hpc].
  - destruct (step_total c s i Hpc) as (calls & s' & Hs). rewrite Hs.
    destruct (step_facts c s s' i calls Hs) as (_ & _ & _ & _ & _ & _ & _ & Hr).
    destruct (IH s' Hr) as [Hn Hp].
    destruct (run c rest s') as [t sf]. cbn [fst snd List.length] in *.
    split; congruence.
Qed.

Lemma irq_after_teardown (c : config) (irq : bool) :
  irq_after (teardown_calls c) irq = irq.
Proof.
  unfold teardown_calls.
  destruct (MICROPY_PY_AUDIO c), (MICROPY_PY_BLUETOOTH c),
    (MICROPY_PY_NETWORK c); reflexivity.
Qed.

(** C9. The lifecycle never ends: from [soft_reset_exit], whatever the
    state, the teardown is followed by the [soft_reset] label, with
    [first_soft_reset] cleared; along every execution from power-on every
    step has a successor and control never stands at [return 0]. *)
Theorem main_never_returns :
  forall (c : config) (irq : bool) (inputs : list resp),
  steps_taken c inputs (power_on irq) = List.length inputs
  /\ pc (snd (run c inputs (power_on irq))) <> L_return
  /\ forall (fsr intr q : bool) (i : resp),
       step c {| pc := L_soft_reset_exit; first_soft_reset := fsr;
                 interrupted := intr; ide_irq := q |} i
       = Some (teardown_calls c,
               {| pc := L_soft_reset; first_soft_reset := false;
                  interrupted := intr; ide_irq := q |}).
Proof.
  intros c irq inputs.
  destruct (run_never_returns c inputs (power_on irq)) as [Hn Hp];
    [discriminate|].
  repeat split; try assumption.
  intros fsr intr q i. unfold step, goto. cbn [pc first_soft_reset interrupted ide_irq].
  now rewrite irq_after_teardown.
Qed.

(** *** Teardown *)

Lemma collect_app (f : call -> option subsystem) (a b : list call) :
  collect f (a ++ b) = collect f a ++ collect f b.
Proof. unfold collect. apply flat_map_app. Qed.

Lemma times_add {A : Type} (m n : nat) (l : list A) :
  times (m + n) l = times m l ++ times n l.
Proof.
  induction m as [|m IH]; cbn [Nat.add times]; [reflexivity|].
  now rewrite IH, app_assoc.
Qed.

Lemma deinits_boot_calls (c : config) : collect deinit_of (boot_calls c) = [].
Proof.
  unfold boot_calls.
  destruct (MICROPY_HW_ENABLE_UART_REPL c), (NDEBUG c), (MICROPY_PY_THREAD c);
    reflexivity.
Qed.

Lemma deinits_init_subsystems (c : config) :
  collect deinit_of (init_subsystems c) = [].
Proof.
  unfold init_subsystems.
  destruct (MICROPY_PY_BLUETOOTH c), (MICROPY_PY_NETWORK c); reflexivity.
Qed.

Lemma deinits_teardown_calls (c : config) :
  collect deinit_of (teardown_calls c) = torn_down c.
Proof.
  unfold teardown_calls, torn_down.
  destruct (MICROPY_PY_AUDIO c), (MICROPY_PY_BLUETOOTH c),
    (MICROPY_PY_NETWORK c); reflexivity.
Qed.

Lemma torn_down_NoDup (c : config) : NoDup (torn_down c).
Proof.
  unfold torn_down.
  destruct (MICROPY_PY_AUDIO c), (MICROPY_PY_BLUETOOTH c),
    (MICROPY_PY_NETWORK c); cbn [app];
    repeat (constructor; [cbn; intuition discriminate|]); constructor.
Qed.

(** A step deinitialises nothing, unless it is the teardown. *)
Lemma step_deinits (c : config) (s s' : state) (i : resp) (calls : list call) :
  step c s i = Some (calls, s') ->
  collect deinit_of calls
  = times (count is_soft_reboot calls) (torn_down c).
Proof.
  intros H.
  pose proof (count_boot_calls c) as (_ & B2 & _).
  pose proof (count_init_subsystems c) as (_ & N2 & _).
  pose proof (count_teardown_calls c) as (_ & T2 & _).
  destruct s as [l fsr intr irq].
  step_cases H;
    rewrite ?collect_app, ?count_app, ?deinits_boot_calls,
      ?deinits_init_subsystems, ?deinits_teardown_calls, ?B2, ?N2, ?T2;
    cbn; rewrite ?app_nil_r; reflexivity.
Qed.

Lemma run_deinits (c : config) (irq : bool) (inputs : list resp) :
  collect deinit_of (fst (run c inputs (power_on irq)))
  = times (count is_soft_reboot (fst (run c inputs (power_on irq))))
          (torn_down c).
Proof.
  apply (run_invariant c
           (fun t _ => collect deinit_of t
                       = times (count is_soft_reboot t) (torn_down c)))
    with (t := []); [|reflexivity].
  intros t s i calls s' Ht Hs.
  rewrite collect_app, count_app, times_add, Ht.
  now rewrite (step_deinits c s s' i calls Hs).
Qed.

(** C4, as the specification states it, fails: in a cycle in which every
    init succeeds, the deinit calls are not the successful inits in reverse
    order. *)
Lemma teardown_does_not_mirror_init :
  pc (snd (run sample_config
             [ret 0; ret 0; ret 0; ret 0; ret 1; ret 0; ret 1; ret 0; ret 0]
             (at_label L_soft_reset false))) = L_soft_reset
  /\ ~ deinit_mirrors_init
         (fst (run sample_config
                 [ret 0; ret 0; ret 0; ret 0; ret 1; ret 0; ret 1; ret 0; ret 0]
                 (at_label L_soft_reset false))).
Proof.
  split; [reflexivity|].
  unfold deinit_mirrors_init. vm_compute. discriminate.
Qed.

(** C4, amended. The teardown phase makes a fixed list of deinit calls that
    does not depend on the outcome of any init: along every execution, the
    deinit calls are those of [soft_reset_exit], once per soft reset, each
    sub-system once: audio, bluetooth and network where compiled in, then
    PIO, DMA, PWM, pins and the runtime; PIO and DMA come in the order of
    their inits, before the pins, which were initialised first. *)
Theorem teardown_is_fixed :
  forall (c : config) (irq : bool) (inputs : list resp),
  collect deinit_of (fst (run c inputs (power_on irq)))
  = times (count is_soft_reboot (fst (run c inputs (power_on irq))))
          (torn_down c)
  /\ collect deinit_of (teardown_calls c)
     = (if MICROPY_PY_AUDIO c then [Audio] else [])
       ++ (if MICROPY_PY_BLUETOOTH c then [Bluetooth] else [])
       ++ (if MICROPY_PY_NETWORK c then [Network] else [])
       ++ [Pio; Dma; Pwm; Pin; Runtime]
  /\ NoDup (collect deinit_of (teardown_calls c))
  /\ firstn 4 (collect init_ok (init_subsystems c)) = [Readline; Pin; Pio; Dma].
Proof.
  intros c irq inputs. rewrite deinits_teardown_calls.
  repeat split.
  - apply run_deinits.
  - apply torn_down_NoDup.
Qed.


(** *** Degraded bring-up *)

(** From the filesystem block, the boot script is reached within five
    steps, whatever the mount and the USB stack answer. *)
Lemma boot_py_reached (c : config) (s : state) (inputs : list resp) :
  pc s = L_storage -> (5 <= List.length inputs)%nat ->
  exists n, (n <= 5)%nat
            /\ pc (snd (run c (firstn n inputs) s)) = L_boot_py.
Proof.
  intros Hpc Hlen.
  destruct inputs as [|i1 [|i2 [|i3 [|i4 [|i5 rest]]]]];
    cbn [List.length] in Hlen; try lia.
  destruct s as [l fsr intr irq]. cbn [pc] in Hpc. subst l.
  destruct (MICROPY_VFS_FAT c && MICROPY_HW_USB_MSC c) eqn:Hfs;
    [destruct (value i1 =? - MP_ENODEV c) eqn:Hdev;
     [destruct (value i2 =? 0) eqn:Hmk|]|].
  - exists 5%nat. split; [lia|].
    cbn [firstn run step pc]. rewrite Hfs, Hdev. unfold goto at 1.
    cbn [run step pc]. rewrite Hmk. unfold goto at 1.
    cbn [run step pc]. unfold goto at 1. cbn [run step pc]. unfold goto at 1.
    cbn [run step pc]. destruct (truthy (value i5)); reflexivity.
  - exists 4%nat. split; [lia|].
    cbn [firstn run step pc]. rewrite Hfs, Hdev. unfold goto at 1.
    cbn [run step pc]. rewrite Hmk. unfold goto at 1.
    cbn [run step pc]. unfold goto at 1.
    cbn [run step pc]. destruct (truthy (value i4)); reflexivity.
  - exists 3%nat. split; [lia|].
    cbn [firstn run step pc]. rewrite Hfs, Hdev. unfold goto at 1.
    cbn [run step pc]. unfold goto at 1.
    cbn [run step pc]. destruct (truthy (value i3)); reflexivity.
  - exists 3%nat. split; [lia|].
    cbn [firstn run step pc]. rewrite Hfs. unfold goto at 1.
    cbn [run step pc]. unfold goto at 1.
    cbn [run step pc]. destruct (truthy (value i3)); reflexivity.
Qed.


(** The sensor: when [sensor_init] returns nonzero, [main] prints
    "sensor init failed!" and goes on to the filesystem block in the very
    state a successful init leaves: the rest of the cycle is the one of a
    healthy boot, the boot script is reached within five steps, every step
    has a successor and [main] does not return. *)
Theorem sensor_init_failure_is_logged_and_survived :
  forall (c : config) (fsr intr irq : bool) (i : resp) (rest : list resp),
  MICROPY_PY_SENSOR c = true ->
  value i <> 0 ->
  step c {| pc := L_sensor_init; first_soft_reset := fsr;
            interrupted := intr; ide_irq := irq |} i
  = Some ([sensor_init (value i); printf ("sensor init failed!" ++ nl)%string],
          {| pc := L_storage; first_soft_reset := fsr;
             interrupted := intr; ide_irq := irq |})
  /\ step c {| pc := L_sensor_init; first_soft_reset := fsr;
               interrupted := intr; ide_irq := irq |} (ret 0)
     = Some ([sensor_init 0],
             {| pc := L_storage; first_soft_reset := fsr;
                interrupted := intr; ide_irq := irq |})
  /\ steps_taken c (i :: rest)
       {| pc := L_sensor_init; first_soft_reset := fsr;
          interrupted := intr; ide_irq := irq |}
     = List.length (i :: rest)
  /\ pc (snd (run c (i :: rest)
                {| pc := L_sensor_init; first_soft_reset := fsr;
                   interrupted := intr; ide_irq := irq |})) <> L_return
  /\ ((5 <= List.length rest)%nat ->
      exists n, (n <= 5)%nat
        /\ pc (snd (run c (firstn n rest)
                      {| pc := L_storage; first_soft_reset := fsr;
                         interrupted := intr; ide_irq := irq |})) = L_boot_py).
Proof.
  intros c fsr intr irq i rest Hsensor Hfail.
  assert (Hne : (value i =? 0) = false) by (apply Z.eqb_neq; exact Hfail).
  split; [|split; [|split; [|split]]].
  - unfold step, goto. cbn [pc first_soft_reset interrupted ide_irq].
    now rewrite Hsensor, Hne.
  - unfold step, goto. cbn [pc first_soft_reset interrupted ide_irq value ret].
    now rewrite Hsensor.
  - apply run_never_returns. discriminate.
  - apply run_never_returns. discriminate.
  - intros Hlen. now apply boot_py_reached.
Qed.

Lemma sensor_init_failure_is_logged_and_survived_witness :
  step sample_config (at_label L_sensor_init false) (ret (-1))
  = Some ([sensor_init (-1); printf ("sensor init failed!" ++ nl)%string],
          at_label L_storage false).
Proof.
  refine (proj1 (sensor_init_failure_is_logged_and_survived sample_config
                   true false false (ret (-1)) [] _ _)).
  - reflexivity.
  - simpl. lia.
Defined.

(** *** Host scripts *)

(** C2, as the specification states it, fails on two paths: when the script
    leaves by an exception, [main] makes no call that disables the IDE
    interrupt, which stays enabled; and when the script returns, the
    interrupt ends disabled even if it was enabled before the run, as it is
    after a turn of the REPL loop. *)
Lemma host_run_bracket_is_not_symmetric :
  ~ bracket_symmetric sample_config (at_label L_host_run false) raise
  /\ ~ bracket_symmetric sample_config (at_label L_host_run true) (ret 0)
  /\ ide_irq (snd (run sample_config [ret 0; ret 0; raise; ret 1]
                     (at_label L_repl_check false))) = true.
Proof.
  unfold bracket_symmetric. cbn. repeat split.
  - intros [H _]. discriminate H.
  - intros [H _]. discriminate H.
Qed.

(** C2, amended. For every host script whose guarded run returns to [main]
    (normal completion or early exit), [main] enables the IDE interrupt
    before the script and disables it after it: the interrupt is disabled
    after the run, whatever its state before. *)
Theorem host_run_disables_irq_on_return :
  forall (c : config) (fsr intr irq : bool) (v : Z),
  step c {| pc := L_host_run; first_soft_reset := fsr;
            interrupted := intr; ide_irq := irq |} (ret v)
  = Some ([nlr_push; usbdbg_set_irq_enabled true; usbdbg_get_script;
           pyexec_str (Returned v); usbdbg_set_irq_enabled false; nlr_pop],
          {| pc := L_busy_check; first_soft_reset := fsr;
             interrupted := intr; ide_irq := false |}).
Proof. reflexivity. Qed.




End LifecycleSpec.

(* ------------------------------------------------------------------------- *)
(** * More on the entropy source *)

Module RoscMore.

Import Rosc RoscObs RoscSpec.

Lemma for_loop_add (osc : nat -> bool) (m n : nat) :
  forall h, for_loop osc (m + n) h = for_loop osc n (for_loop osc m h).
Proof.
  induction m as [|m IH]; intros h; cbn [Nat.add for_loop]; [reflexivity|].
  apply IH.
Qed.

Lemma rosc_random_u8_add (osc : nat -> bool) (m n : nat) (h : hw) :
  rosc_random_u8 osc n (snd (rosc_random_u8 osc m h))
  = rosc_random_u8 osc (m + n) h.
Proof.
  unfold rosc_random_u8. cbn [snd]. now rewrite for_loop_add.
Qed.


Lemma byte_high_bits (b k : Z) : is_u8 b -> 8 <= k -> Z.testbit b k = false.
Proof.
  intros [Hlo Hhi] Hk.
  destruct (Z.eq_dec b 0) as [->|Hnz]; [apply Z.bits_0|].
  apply Z.bits_above_log2; [lia|].
  apply Z.lt_le_trans with 8; [|exact Hk].
  apply Z.log2_lt_pow2; lia.
Qed.

(** [value << 8 | byte] in a [uint32_t], while the value fits 24 bits. *)
Lemma lor_shift_byte (v b : Z) :
  0 <= v < 2 ^ 24 -> is_u8 b ->
  Z.lor (Z.shiftl v 8 mod 2 ^ 32) b = 256 * v + b.
Proof.
  intros Hv Hb.
  rewrite Z.shiftl_mul_pow2 by lia.
  rewrite Z.mod_small by lia.
  assert (Hland : Z.land (v * 2 ^ 8) b = 0).
  { apply Z.bits_inj'. intros k Hk. rewrite Z.land_spec, Z.bits_0.
    destruct (Z_lt_le_dec k 8) as [Hlt|Hge].
    - now rewrite Z.mul_pow2_bits_low by lia.
    - rewrite (byte_high_bits b k Hb Hge). apply andb_false_r. }
  rewrite <- Z.lxor_lor, <- Z.add_nocarry_lxor by exact Hland. lia.
Qed.

Lemma pack_four_bytes (b1 b2 b3 b4 : Z) :
  is_u8 b1 -> is_u8 b2 -> is_u8 b3 -> is_u8 b4 ->
  Z.lor (Z.shiftl
           (Z.lor (Z.shiftl
                     (Z.lor (Z.shiftl
                               (Z.lor (Z.shiftl 0 8 mod 2 ^ 32) b1) 8
                             mod 2 ^ 32) b2) 8
                   mod 2 ^ 32) b3) 8
         mod 2 ^ 32) b4
  = 2 ^ 24 * b1 + 2 ^ 16 * b2 + 2 ^ 8 * b3 + b4.
Proof.
  intros H1 H2 H3 H4.
  assert (U1 := H1). assert (U2 := H2). assert (U3 := H3).
  unfold is_u8 in U1, U2, U3.
  rewrite (lor_shift_byte 0 b1) by (try exact H1; lia).
  rewrite (lor_shift_byte (256 * 0 + b1) b2) by (try exact H2; lia).
  rewrite (lor_shift_byte (256 * (256 * 0 + b1) + b2) b3)
    by (try exact H3; lia).
  rewrite (lor_shift_byte (256 * (256 * (256 * 0 + b1) + b2) + b3) b4)
    by (try exact H4; lia).
  lia.
Qed.

Lemma byte_after_is_u8 (osc : nat -> bool) (n : nat) (h : hw) :
  is_u8 (r h) -> is_u8 (byte_after osc n h).
Proof. intros Hh. unfold byte_after, rosc_random_u8. now apply for_loop_is_u8. Qed.

(** The four iterations of the loop of [rosc_random_u32], for any byte
    source [f] in place of [rosc_random_u8(32)]. *)
Lemma fold_four_calls (f : hw -> Z * hw) (h : hw) :
  fold_left
    (fun (acc : Z * hw) (_ : nat) =>
       let (b, h') := f (snd acc) in
       (Z.lor (Z.shiftl (fst acc) 8 mod 2 ^ 32) b, h'))
    (seq 0 4) (0, h)
  = (Z.lor (Z.shiftl
              (Z.lor (Z.shiftl
                        (Z.lor (Z.shiftl
                                  (Z.lor (Z.shiftl 0 8 mod 2 ^ 32)
                                         (fst (f h))) 8
                                mod 2 ^ 32)
                               (fst (f (snd (f h))))) 8
                      mod 2 ^ 32)
                     (fst (f (snd (f (snd (f h))))))) 8
            mod 2 ^ 32)
           (fst (f (snd (f (snd (f (snd (f h)))))))),
     snd (f (snd (f (snd (f (snd (f h)))))))).
Proof.
  cbn [seq fold_left fst snd].
  destruct (f h) as [b1 h1]. cbn [fst snd].
  destruct (f h1) as [b2 h2]. cbn [fst snd].
  destruct (f h2) as [b3 h3]. cbn [fst snd].
  destruct (f h3) as [b4 h4]. reflexivity.
Qed.

Lemma word_of_four_calls (osc : nat -> bool) (h : hw) :
  rosc_random_u32 osc h
  = (Z.lor (Z.shiftl
              (Z.lor (Z.shiftl
                        (Z.lor (Z.shiftl
                                  (Z.lor (Z.shiftl 0 8 mod 2 ^ 32)
                                         (byte_after osc 32 h)) 8
                                mod 2 ^ 32)
                               (byte_after osc 64 h)) 8
                      mod 2 ^ 32)
                     (byte_after osc 96 h)) 8
            mod 2 ^ 32)
           (byte_after osc 128 h),
     snd (rosc_random_u8 osc 128 h)).
Proof.
  unfold rosc_random_u32. rewrite fold_four_calls.
  rewrite (rosc_random_u8_add osc 32 32 h).
  rewrite (rosc_random_u8_add osc (32 + 32) 32 h).
  rewrite (rosc_random_u8_add osc (32 + 32 + 32) 32 h).
  unfold byte_after.
  replace (32 + 32 + 32 + 32)%nat with 128%nat by reflexivity.
  replace (32 + 32 + 32)%nat with 96%nat by reflexivity.
  replace (32 + 32)%nat with 64%nat by reflexivity.
  reflexivity.
Qed.

Lemma pair_eq_inv {A B : Type} (p : A * B) (x : A) (y : B) :
  p = (x, y) -> fst p = x /\ snd p = y.
Proof. intros ->. split; reflexivity. Qed.

Lemma rosc_random_u32_word (osc : nat -> bool) (h : hw) :
  is_u8 (r h) ->
  fst (rosc_random_u32 osc h)
  = 2 ^ 24 * byte_after osc 32 h + 2 ^ 16 * byte_after osc 64 h
    + 2 ^ 8 * byte_after osc 96 h + byte_after osc 128 h
  /\ snd (rosc_random_u32 osc h) = snd (rosc_random_u8 osc 128 h).
Proof.
  intros Hh.
  pose proof (byte_after_is_u8 osc 32 h Hh) as H1.
  pose proof (byte_after_is_u8 osc 64 h Hh) as H2.
  pose proof (byte_after_is_u8 osc 96 h Hh) as H3.
  pose proof (byte_after_is_u8 osc 128 h Hh) as H4.
  destruct (pair_eq_inv _ _ _ (word_of_four_calls osc h)) as [Hw Hs].
  rewrite (pack_four_bytes _ _ _ _ H1 H2 H3 H4) in Hw.
  split; assumption.
Qed.

(** X2. [rosc_random_u32] reads 128 samples and returns the four bytes the
    accumulator holds after 32, 64, 96 and 128 of them, most significant
    first; the word is below 2^32, and the state left is that of one
    [rosc_random_u8(128)]. *)
Theorem rosc_random_u32_is_four_bytes :
  forall (randombit : nat -> bool) (h : hw),
  is_u8 (r h) ->
  fst (rosc_random_u32 randombit h)
  = 2 ^ 24 * byte_after randombit 32 h
    + 2 ^ 16 * byte_after randombit 64 h
    + 2 ^ 8 * byte_after randombit 96 h
    + byte_after randombit 128 h
  /\ 0 <= fst (rosc_random_u32 randombit h) < 2 ^ 32
  /\ snd (rosc_random_u32 randombit h)
     = snd (rosc_random_u8 randombit 128 h).
Proof.
  intros osc h Hh.
  destruct (rosc_random_u32_word osc h Hh) as [Hw Hs].
  pose proof (byte_after_is_u8 osc 32 h Hh) as H1.
  pose proof (byte_after_is_u8 osc 64 h Hh) as H2.
  pose proof (byte_after_is_u8 osc 96 h Hh) as H3.
  pose proof (byte_after_is_u8 osc 128 h Hh) as H4.
  rewrite Hw, Hs. clear Hw Hs.
  generalize dependent (byte_after osc 32 h).
  generalize dependent (byte_after osc 64 h).
  generalize dependent (byte_after osc 96 h).
  generalize dependent (byte_after osc 128 h).
  unfold is_u8. intros. split; [reflexivity|]. split; [lia|reflexivity].
Qed.

Lemma rosc_random_u32_is_four_bytes_witness :
  0 <= fst (rosc_random_u32 stuck_at_one power_on) < 2 ^ 32.
Proof.
  refine (proj1 (proj2 (rosc_random_u32_is_four_bytes stuck_at_one power_on _))).
  unfold is_u8. cbn [r power_on]. lia.
Defined.

(** *** A silent oscillator *)

Lemma samples_silent (osc : nat -> bool) (n : nat) :
  forall k, (forall j, (k <= j < k + n)%nat -> osc j = false) ->
  map osc (seq k n) = repeat false n.
Proof.
  induction n as [|n IH]; intros k Hs; [reflexivity|].
  cbn [seq map repeat]. rewrite (Hs k) by lia. f_equal.
  apply IH. intros j Hj. apply Hs. lia.
Qed.

Lemma fold_spec_mix_zero (n : nat) :
  fold_left spec_mix (repeat false n) 0 = 0.
Proof. induction n as [|n IH]; [reflexivity|exact IH]. Qed.

Lemma byte_after_silent (osc : nat -> bool) (n : nat) (h : hw) :
  r h = 0 -> silent osc n h -> byte_after osc n h = 0.
Proof.
  intros Hr Hs. unfold byte_after, rosc_random_u8. cbn [fst].
  rewrite for_loop_fold by (rewrite Hr; unfold is_u8; lia).
  unfold samples. rewrite (samples_silent osc n (reads h) Hs), Hr.
  apply fold_spec_mix_zero.
Qed.

Lemma silent_shorter (osc : nat -> bool) (m n : nat) (h : hw) :
  (m <= n)%nat -> silent osc n h -> silent osc m h.
Proof. intros Hmn Hs k Hk. apply Hs. lia. Qed.

(** X3. Zero is a fixed point of the mixer: while the oscillator reads zero
    and the accumulator is zero on entry, [rosc_random_u8] returns 0 for
    every number of cycles and leaves the accumulator at zero, and
    [rosc_random_u32] returns the word 0. *)
Theorem silent_oscillator_yields_zero :
  forall (randombit : nat -> bool) (cycles : nat) (h : hw),
  r h = 0 ->
  silent randombit cycles h ->
  fst (rosc_random_u8 randombit cycles h) = 0
  /\ r (snd (rosc_random_u8 randombit cycles h)) = 0
  /\ (silent randombit 128 h -> fst (rosc_random_u32 randombit h) = 0).
Proof.
  intros osc n h Hr Hs.
  pose proof (byte_after_silent osc n h Hr Hs) as Hb.
  split; [exact Hb|]. split; [exact Hb|].
  intros H128.
  destruct (rosc_random_u32_word osc h) as [Hw _];
    [rewrite Hr; unfold is_u8; lia|].
  rewrite Hw.
  rewrite (byte_after_silent osc 32 h Hr (silent_shorter osc 32 128 h ltac:(lia) H128)).
  rewrite (byte_after_silent osc 64 h Hr (silent_shorter osc 64 128 h ltac:(lia) H128)).
  rewrite (byte_after_silent osc 96 h Hr (silent_shorter osc 96 128 h ltac:(lia) H128)).
  rewrite (byte_after_silent osc 128 h Hr H128).
  reflexivity.
Qed.

Lemma silent_oscillator_yields_zero_witness :
  fst (rosc_random_u8 stuck_at_zero 5 power_on) = 0.
Proof.
  refine (proj1 (silent_oscillator_yields_zero stuck_at_zero 5 power_on _ _)).
  - reflexivity.
  - intros k _. reflexivity.
Defined.

(** *** Linearity over GF(2) *)

Lemma forall_bytes2 (P : Z -> Z -> bool) :
  forallb (fun a => forallb (P a) bytes) bytes = true ->
  forall a b, is_u8 a -> is_u8 b -> P a b = true.
Proof.
  intros Hall a b Ha Hb.
  apply (forall_bytes (P a)); [|exact Hb].
  apply (forall_bytes (fun a => forallb (P a) bytes)); assumption.
Qed.

Lemma lxor_is_u8 (a b : Z) : is_u8 a -> is_u8 b -> is_u8 (Z.lxor a b).
Proof.
  intros Ha Hb.
  assert (H : ((0 <=? Z.lxor a b) && (Z.lxor a b <? 256)) = true).
  { revert a b Ha Hb. apply forall_bytes2. vm_compute. reflexivity. }
  apply andb_true_iff in H. destruct H as [H1 H2].
  unfold is_u8. split; [apply Z.leb_le|apply Z.ltb_lt]; assumption.
Qed.

Lemma spec_mix_linear (a a' : Z) (b b' : bool) :
  is_u8 a -> is_u8 a' ->
  spec_mix (Z.lxor a a') (xorb b b')
  = Z.lxor (spec_mix a b) (spec_mix a' b').
Proof.
  intros Ha Ha'. apply Z.eqb_eq. revert a a' Ha Ha'.
  destruct b, b'; apply forall_bytes2; vm_compute; reflexivity.
Qed.

Lemma fold_spec_mix_linear (bs : list bool) :
  forall (bs' : list bool) (a a' : Z),
  List.length bs = List.length bs' -> is_u8 a -> is_u8 a' ->
  fold_left spec_mix (xor_bits bs bs') (Z.lxor a a')
  = Z.lxor (fold_left spec_mix bs a) (fold_left spec_mix bs' a').
Proof.
  induction bs as [|b bs IH]; intros [|b' bs'] a a' Hlen Ha Ha';
    try discriminate Hlen; [reflexivity|].
  unfold xor_bits. cbn [combine map fold_left fst snd].
  rewrite spec_mix_linear by assumption.
  apply IH; auto using spec_mix_is_u8.
Qed.

(** X4. The mixer is linear over GF(2): if a call enters with the XOR of
    two accumulator values and samples the XOR of two bit sequences, it
    returns the XOR of the bytes the two calls return.  So the byte is the
    XOR of what the entry value alone and what the samples alone give. *)
Theorem rosc_random_u8_is_linear :
  forall (osc1 osc2 osc3 : nat -> bool) (cycles : nat) (h1 h2 h3 : hw),
  is_u8 (r h1) -> is_u8 (r h2) ->
  r h3 = Z.lxor (r h1) (r h2) ->
  samples osc3 cycles h3
  = xor_bits (samples osc1 cycles h1) (samples osc2 cycles h2) ->
  fst (rosc_random_u8 osc3 cycles h3)
  = Z.lxor (fst (rosc_random_u8 osc1 cycles h1))
           (fst (rosc_random_u8 osc2 cycles h2)).
Proof.
  intros osc1 osc2 osc3 n h1 h2 h3 H1 H2 Hr Hs.
  unfold rosc_random_u8. cbn [fst].
  rewrite !for_loop_fold; try assumption.
  - rewrite Hs, Hr. apply fold_spec_mix_linear; try assumption.
    unfold samples. now rewrite !length_map, !length_seq.
  - rewrite Hr. now apply lxor_is_u8.
Qed.

Lemma rosc_random_u8_is_linear_witness :
  fst (rosc_random_u8 alternating 9
         (snd (rosc_random_u8 stuck_at_one 4 power_on)))
  = Z.lxor (fst (rosc_random_u8 stuck_at_zero 9
                   (snd (rosc_random_u8 stuck_at_one 4 power_on))))
           (fst (rosc_random_u8 alternating 9 power_on)).
Proof.
  apply rosc_random_u8_is_linear.
  - unfold is_u8. split; [vm_compute; discriminate | vm_compute; reflexivity].
  - unfold is_u8. cbn [r power_on]. lia.
  - vm_compute. reflexivity.
  - vm_compute. reflexivity.
Defined.

End RoscMore.

(* ------------------------------------------------------------------------- *)
(** * More on the fatal handler *)

Module FatalMore.

Import Fatal FatalSpec.

Section Board.

Variable pin : Z.

Lemma run_split (a b : nat) :
  forall l,
  run pin (a + b) l
  = (fst (run pin a l) ++ fst (run pin b (snd (run pin a l))),
     snd (run pin b (snd (run pin a l)))).
Proof.
  induction a as [|a IH]; intros l; cbn [Nat.add run].
  - cbn [fst snd app]. now destruct (run pin b l).
  - destruct (step pin l) as [[c l']|] eqn:Hs.
    + rewrite IH. destruct (run pin a l') as [t1 l1]. reflexivity.
    + cbn [fst snd app]. destruct b; cbn [run]; [reflexivity|].
      now rewrite Hs.
Qed.

Lemma run_script (n : nat) :
  fst (run pin (2 + 4 * n) L_gpio_init) = prologue pin ++ blinks pin n.
Proof.
  change (2 + 4 * n)%nat with (S (S (4 * n))).
  cbn [run step]. rewrite run_periods. reflexivity.
Qed.

(** The pins and delays a call may use. *)
Lemma script_uses_led_only (n : nat) :
  Forall (fun c => match c with
                   | gpio_init p | gpio_set_dir p _ | gpio_put p _ => p = pin
                   | sleep_ms ms => ms = 100
                   end) (prologue pin ++ blinks pin n).
Proof.
  apply Forall_app. split.
  - repeat constructor.
  - induction n as [|n IH]; cbn [blinks]; [constructor|].
    apply Forall_app. split; [repeat constructor | exact IH].
Qed.

End Board.

(** X5. At every moment the calls [__fatal_error] has made are an initial
    part of one fixed sequence: set up the LED pin, then on, 100 ms, off,
    100 ms, again and again.  It touches no pin but [OMV_LED_PIN] and
    sleeps for no other time than 100 ms. *)
Theorem fatal_error_follows_the_blink_script :
  forall (OMV_LED_PIN : Z) (n : nat),
  fst (run OMV_LED_PIN n L_gpio_init)
  = firstn n (prologue OMV_LED_PIN ++ blinks OMV_LED_PIN n)
  /\ Forall (fun c => match c with
                      | gpio_init p | gpio_set_dir p _ | gpio_put p _ =>
                          p = OMV_LED_PIN
                      | sleep_ms ms => ms = 100
                      end) (fst (run OMV_LED_PIN n L_gpio_init)).
Proof.
  intros pin n.
  assert (Hpre : fst (run pin n L_gpio_init)
                 = firstn n (prologue pin ++ blinks pin n)).
  { rewrite <- run_script.
    replace (2 + 4 * n)%nat with (n + (2 + 3 * n))%nat by lia.
    rewrite run_split. cbn [fst].
    destruct (run_never_ends pin n L_gpio_init) as [_ Hlen]; [discriminate|].
    rewrite firstn_app, Hlen, Nat.sub_diag, firstn_O, app_nil_r.
    symmetry. apply firstn_all2. lia. }
  split; [exact Hpre|].
  rewrite Hpre.
  pose proof (script_uses_led_only pin n) as Hall.
  rewrite <- (firstn_skipn n (prologue pin ++ blinks pin n)) in Hall.
  apply Forall_app in Hall. exact (proj1 Hall).
Qed.

End FatalMore.

(* ------------------------------------------------------------------------- *)
(** * Uncaught exceptions *)

Module JumpSpec.

Import Jump.

Lemma run_breakpoints (val : Z) (n : nat) :
  run val n L_breakpoint = (repeat breakpoint n, L_breakpoint).
Proof.
  induction n as [|n IH]; [reflexivity|].
  cbn [run step repeat]. now rewrite IH.
Qed.

(** X6. [nlr_jump_fail] never returns: it prints the FATAL line and the
    exception once, in that order, and from then on executes only
    breakpoints, for every number of statements. *)
Theorem nlr_jump_fail_never_returns :
  forall (val : Z) (n : nat),
  run val (2 + n) L_printf
  = (printf fatal_format val :: mp_obj_print_exception val
       :: repeat breakpoint n, L_breakpoint)
  /\ snd (run val n L_printf) <> L_end
  /\ List.length (fst (run val n L_printf)) = n.
Proof.
  intros val n. split.
  - cbn [Nat.add run step]. now rewrite run_breakpoints.
  - destruct n as [|[|n]]; cbn [run step]; try (split; [discriminate|reflexivity]).
    rewrite run_breakpoints. cbn [fst snd List.length].
    rewrite repeat_length. split; [discriminate|reflexivity].
Qed.

End JumpSpec.

(* ------------------------------------------------------------------------- *)
(** * More on the lifecycle *)

Module LifecycleMore.

Import Lifecycle Accounting LifecycleSpec.

(** Settles a goal about the calls of one step by going through the steps,
    the configuration switches and the answers. *)
Ltac account H :=
  step_cases H;
  unfold boot_calls, init_subsystems, teardown_calls, runtime_init_calls;
  cbn in *;
  repeat match goal with
    | |- context [truthy ?v] => destruct (truthy v) eqn:?; cbn in *
    | |- context [if ?b then _ else _] => destruct b eqn:?; cbn in *
    end;
  try lia; try tauto; try congruence.

Lemma run_app (c : config) (a b : list resp) :
  forall s,
  run c (a ++ b) s
  = (fst (run c a s) ++ fst (run c b (snd (run c a s))),
     snd (run c b (snd (run c a s)))).
Proof.
  induction a as [|i a IH]; intros s; cbn [app run].
  - cbn [fst snd app]. now destruct (run c b s).
  - destruct (step c s i) as [[calls s']|] eqn:Hs.
    + rewrite IH. destruct (run c a s') as [t1 s1]. cbn [fst snd].
      now rewrite app_assoc.
    + cbn [fst snd app]. destruct b as [|j b]; cbn [run]; [reflexivity|].
      assert (Hret : pc s = L_return).
      { destruct (pc s) eqn:Hpc; try reflexivity;
          destruct (step_total c s i) as (x & y & Hxy);
          try congruence; rewrite Hpc; discriminate. }
      unfold step. now rewrite Hret.
Qed.

Lemma one_shot_pc_not_entry (c : config) (inputs : list resp) (s : state) :
  pc s <> L_entry -> pc (snd (run c inputs s)) <> L_entry.
Proof.
  intros Hpc.
  apply (run_invariant c (fun _ s => pc s <> L_entry))
    with (t := []) (inputs := inputs) (s := s); [|exact Hpc].
  clear. intros t s i calls s' _ Hs.
  now destruct (step_facts c s s' i calls Hs) as (_ & _ & _ & _ & _ & _ & He & _).
Qed.

(** *** The prologue runs once *)

Lemma filter_boot_calls (c : config) :
  filter is_boot_call (boot_calls c) = boot_calls c.
Proof.
  unfold boot_calls.
  destruct (MICROPY_HW_ENABLE_UART_REPL c), (NDEBUG c), (MICROPY_PY_THREAD c);
    reflexivity.
Qed.

Lemma no_boot_call_after_entry (c : config) (inputs : list resp) (s : state) :
  pc s <> L_entry ->
  filter is_boot_call (fst (run c inputs s)) = [].
Proof.
  intros Hpc.
  apply (run_invariant c
           (fun t s => pc s <> L_entry /\ filter is_boot_call t = []))
    with (t := []) (inputs := inputs) (s := s); [|split; [exact Hpc|reflexivity]].
  clear. intros t s i calls s' [Hpc Ht] Hs.
  rewrite filter_app, Ht.
  destruct s as [l fsr intr irq]. cbn [pc] in Hpc.
  step_cases Hs; try contradiction;
    unfold init_subsystems, teardown_calls, runtime_init_calls;
    repeat match goal with
      | |- context [if ?b then _ else _] => destruct b
      end; cbn; split; try discriminate; reflexivity.
Qed.

(** X7. The calls before the [soft_reset] label (UART or stdio set-up,
    thread and RTC initialisation, the board id) are made exactly once, in
    source order, in every execution that starts at all; no soft reset
    repeats any of them. *)
Theorem prologue_runs_once :
  forall (c : config) (irq : bool) (i : resp) (rest : list resp),
  filter is_boot_call (fst (run c (i :: rest) (power_on irq))) = boot_calls c.
Proof.
  intros c irq i rest. cbn [run]. unfold step at 1, goto.
  cbn [pc power_on first_soft_reset interrupted ide_irq].
  match goal with
  | |- context [run c rest ?s1] =>
      pose proof (no_boot_call_after_entry c rest s1) as Hrest;
      destruct (run c rest s1) as [t sf]
  end.
  cbn [fst] in *. rewrite filter_app, filter_boot_calls, Hrest, app_nil_r;
    [reflexivity | discriminate].
Qed.


(** *** Init and deinit calls pair up *)

Lemma balance_step (c : config) (x : subsystem) (t : list call)
  (s s' : state) (i : resp) (calls : list call) :
  In x paired ->
  occurrences x (collect init_ok t)
  = (occurrences x (collect deinit_of t)
     + (if brought_up c x && running (pc s) then 1 else 0))%nat ->
  step c s i = Some (calls, s') ->
  occurrences x (collect init_ok (t ++ calls))
  = (occurrences x (collect deinit_of (t ++ calls))
     + (if brought_up c x && running (pc s') then 1 else 0))%nat.
Proof.
  intros Hx HI Hs. unfold occurrences in *.
  rewrite !collect_app, !count_occ_app.
  destruct s as [l fsr intr irq].
  unfold paired in Hx. cbn [In] in Hx.
  destruct Hx as [<-|[<-|[<-|[<-|[<-|[<-|[]]]]]]]; account Hs.
Qed.

Lemma balance_run (c : config) (irq : bool) (inputs : list resp)
  (x : subsystem) :
  In x paired ->
  occurrences x (collect init_ok (fst (run c inputs (power_on irq))))
  = (occurrences x (collect deinit_of (fst (run c inputs (power_on irq))))
     + (if brought_up c x && running (pc (snd (run c inputs (power_on irq))))
        then 1 else 0))%nat.
Proof.
  intros Hx.
  apply (run_invariant c
           (fun t s =>
              occurrences x (collect init_ok t)
              = (occurrences x (collect deinit_of t)
                 + (if brought_up c x && running (pc s) then 1 else 0))%nat))
    with (t := []).
  - intros t s i calls s'. now apply balance_step.
  - cbn. now rewrite andb_false_r.
Qed.

(** X8. For the runtime, the pins, PIO, DMA, bluetooth and network, init
    and deinit calls alternate along every execution, starting with init:
    a sub-system is never deinitialised more often than initialised, and
    never initialised twice without a deinit in between. *)
Theorem init_and_deinit_alternate :
  forall (c : config) (irq : bool) (inputs : list resp),
  Forall
    (fun x =>
       (occurrences x (collect deinit_of (fst (run c inputs (power_on irq))))
        <= occurrences x (collect init_ok (fst (run c inputs (power_on irq))))
        <= occurrences x (collect deinit_of (fst (run c inputs (power_on irq))))
           + 1)%nat)
    [Runtime; Pin; Pio; Dma; Bluetooth; Network].
Proof.
  intros c irq inputs. apply Forall_forall. intros x Hx.
  rewrite (balance_run c irq inputs x Hx).
  destruct (brought_up c x && running _); lia.
Qed.

(** *** boot.py runs in every cycle *)

(** X9. Unlike main.py, boot.py is run in every cycle: along every
    execution the number of boot.py runs is the number of soft resets, plus
    one once the current cycle has passed line 212. *)
Theorem boot_py_runs_every_cycle :
  forall (c : config) (irq : bool) (inputs : list resp),
  (count (is_boot_py true) (fst (run c inputs (power_on irq)))
   + count (is_boot_py false) (fst (run c inputs (power_on irq)))
   = count is_soft_reboot (fst (run c inputs (power_on irq)))
     + (if after_boot_py (pc (snd (run c inputs (power_on irq))))
        then 1 else 0))%nat.
Proof.
  intros c irq inputs.
  apply (run_invariant c
           (fun t s =>
              (count (is_boot_py true) t + count (is_boot_py false) t
               = count is_soft_reboot t
                 + (if after_boot_py (pc s) then 1 else 0))%nat))
    with (t := []); [|reflexivity].
  clear. intros t s i calls s' HI Hs.
  rewrite !count_app. unfold count in *.
  destruct s as [l fsr intr irq]. account Hs.
Qed.

(** *** The one-shot flag *)

(** X10. After power-on, [first_soft_reset] is true exactly until the first
    teardown: once [main] has started, the flag is true if and only if no
    soft reset has happened yet. *)
Theorem first_soft_reset_means_no_reset_yet :
  forall (c : config) (irq : bool) (i : resp) (rest : list resp),
  first_soft_reset (snd (run c (i :: rest) (power_on irq)))
  = (count is_soft_reboot (fst (run c (i :: rest) (power_on irq))) =? 0)%nat.
Proof.
  intros c irq i rest.
  assert (H : pc (snd (run c (i :: rest) (power_on irq))) = L_entry
              /\ fst (run c (i :: rest) (power_on irq)) = []
              \/ pc (snd (run c (i :: rest) (power_on irq))) <> L_entry
                 /\ first_soft_reset (snd (run c (i :: rest) (power_on irq)))
                    = (count is_soft_reboot
                         (fst (run c (i :: rest) (power_on irq))) =? 0)%nat).
  { apply (run_invariant c
             (fun t s =>
                pc s = L_entry /\ t = []
                \/ pc s <> L_entry
                   /\ first_soft_reset s = (count is_soft_reboot t =? 0)%nat))
      with (t := []); [|left; split; reflexivity].
    clear. intros t s i calls s' HI Hs. right.
    rewrite count_app. unfold count in *.
    destruct s as [l fsr intr irq]. cbn [pc first_soft_reset] in HI.
    destruct HI as [[-> ->]|[Hpc ->]].
    - account Hs; split; try discriminate; reflexivity.
    - destruct (List.length (filter is_soft_reboot t)) as [|k];
        account Hs; split; try discriminate; try reflexivity;
        try contradiction. }
  destruct H as [[Hpc _]|[_ H]]; [|exact H].
  exfalso. revert Hpc. cbn [run]. unfold step at 1, goto.
  cbn [pc power_on first_soft_reset interrupted ide_irq].
  match goal with
  | |- context [run c rest ?s1] =>
      destruct (run_never_returns c rest s1) as [_ Hr]; [discriminate|];
      pose proof (one_shot_pc_not_entry c rest s1) as He;
      destruct (run c rest s1) as [tr sf]
  end.
  cbn [snd] in *. apply He. discriminate.
Qed.


(** *** Guarded calls run with the IDE interrupt enabled *)

Lemma irq_after_app (a b : list call) (irq : bool) :
  irq_after (a ++ b) irq = irq_after b (irq_after a irq).
Proof. unfold irq_after. apply fold_left_app. Qed.

Lemma guarded_enabled_app (a b : list call) :
  forall irq,
  guarded_enabled irq (a ++ b)
  = guarded_enabled irq a && guarded_enabled (irq_after a irq) b.
Proof.
  induction a as [|e a IH]; intros irq; [reflexivity|].
  cbn [app guarded_enabled]. rewrite IH, andb_assoc. reflexivity.
Qed.

Lemma guarded_step (c : config) (s s' : state) (i : resp) (calls : list call) :
  (in_repl (pc s) = true -> ide_irq s = true) ->
  step c s i = Some (calls, s') ->
  guarded_enabled (ide_irq s) calls = true
  /\ ide_irq s' = irq_after calls (ide_irq s)
  /\ (in_repl (pc s') = true -> ide_irq s' = true).
Proof.
  intros Hin Hs. destruct s as [l fsr intr irq]. unfold irq_after.
  cbn [pc ide_irq] in Hin.
  account Hs; try rewrite Hin by reflexivity;
    repeat split; intros; try reflexivity; discriminate.
Qed.

(** X11. Every REPL, every host script and every wait for the debugger is
    entered with the IDE interrupt enabled: along every execution, whatever
    the interrupt state at power-on, the last [usbdbg_set_irq_enabled]
    before such a call has the argument true. *)
Theorem guarded_calls_run_with_irq_enabled :
  forall (c : config) (irq : bool) (inputs : list resp),
  guarded_enabled irq (fst (run c inputs (power_on irq))) = true
  /\ ide_irq (snd (run c inputs (power_on irq)))
     = irq_after (fst (run c inputs (power_on irq))) irq.
Proof.
  intros c irq inputs.
  assert (H : guarded_enabled irq (fst (run c inputs (power_on irq))) = true
              /\ ide_irq (snd (run c inputs (power_on irq)))
                 = irq_after (fst (run c inputs (power_on irq))) irq
              /\ (in_repl (pc (snd (run c inputs (power_on irq)))) = true ->
                  ide_irq (snd (run c inputs (power_on irq))) = true)).
  { apply (run_invariant c
             (fun t s => guarded_enabled irq t = true
                         /\ ide_irq s = irq_after t irq
                         /\ (in_repl (pc s) = true -> ide_irq s = true)))
      with (t := []); [|repeat split; discriminate].
    clear inputs. intros t s i calls s' (Hg & Hirq & Hin) Hs.
    destruct (guarded_step c s s' i calls Hin Hs) as (Hc & Hi & Hin').
    rewrite guarded_enabled_app, irq_after_app, <- Hirq, Hg, Hc, Hi.
    repeat split. now rewrite <- Hi. }
  split; apply H.
Qed.

(** *** The sensor failure message *)

(** X12. "sensor init failed!" is printed once for each [sensor_init] that
    returned nonzero and never otherwise: along every execution the number
    of [printf] calls of [main] equals the number of failed sensor inits. *)
Theorem sensor_failures_are_the_only_messages :
  forall (c : config) (irq : bool) (inputs : list resp),
  count is_printf (fst (run c inputs (power_on irq)))
  = count is_sensor_failure (fst (run c inputs (power_on irq))).
Proof.
  intros c irq inputs.
  apply (run_invariant c
           (fun t _ => count is_printf t = count is_sensor_failure t))
    with (t := []); [|reflexivity].
  clear. intros t s i calls s' HI Hs.
  rewrite !count_app. unfold count in *.
  destruct s as [l fsr intr irq]. account Hs.
Qed.

(** *** The cycle that runs main.py *)

Lemma main_cycle_step (c : config) (s s' : state) (i : resp)
  (calls : list call) :
  step c s i = Some (calls, s') ->
  (count is_soft_reboot calls <> 0%nat ->
   first_cycle calls = [] /\ count is_main_py calls = 0%nat)
  /\ (count is_main_py calls <> 0%nat ->
      before_repl (pc s) = true /\ pc s' = L_soft_reset_exit
      /\ count is_interactive calls = 0%nat)
  /\ (before_repl (pc s') = true -> count is_soft_reboot calls = 0%nat ->
      before_repl (pc s) = true /\ count is_interactive calls = 0%nat)
  /\ (pc s = L_soft_reset_exit -> count is_soft_reboot calls <> 0%nat).
Proof.
  intros Hs. unfold count. destruct s as [l fsr intr irq].
  account Hs; repeat split; intros; try discriminate; try lia;
    try reflexivity; try congruence.
Qed.

(** X13. The cycle that runs main.py has no interactive part: in the first
    cycle, if main.py was run, then no REPL, no host script and no query of
    the debug channel happened before the soft reset. *)
Theorem main_py_cycle_skips_the_repl :
  forall (c : config) (irq : bool) (inputs : list resp),
  count is_main_py (first_cycle (fst (run c inputs (power_on irq)))) <> 0%nat ->
  count is_interactive (first_cycle (fst (run c inputs (power_on irq))))
  = 0%nat.
Proof.
  intros c irq inputs.
  apply (run_invariant c
           (fun t s =>
              (count is_soft_reboot t = 0%nat ->
               (count is_main_py t <> 0%nat ->
                pc s = L_soft_reset_exit /\ count is_interactive t = 0%nat)
               /\ (before_repl (pc s) = true ->
                   count is_interactive t = 0%nat))
              /\ (count is_main_py (first_cycle t) <> 0%nat ->
                  count is_interactive (first_cycle t) = 0%nat)))
    with (t := []) (inputs := inputs) (s := power_on irq).
  - clear. intros t s i calls s' [K1 K2] Hs.
    destruct (main_cycle_step c s s' i calls Hs) as (F2 & F3 & F4 & F5).
    rewrite first_cycle_app, !count_app.
    destruct (count is_soft_reboot t =? 0)%nat eqn:Hrb;
      [apply Nat.eqb_eq in Hrb | apply Nat.eqb_neq in Hrb].
    + destruct (K1 Hrb) as [Km Kb]. rewrite (first_cycle_all t Hrb) in K2.
      assert (Hmain : count is_main_py t <> 0%nat ->
                      count is_soft_reboot calls <> 0%nat).
      { intros Hm. apply F5. now apply Km. }
      rewrite !count_app. split.
      * intros Hno. assert (Hc : count is_soft_reboot calls = 0%nat) by lia.
        split.
        -- intros Hm. destruct (Nat.eq_dec (count is_main_py t) 0) as [Ht|Ht];
             [|now apply Hmain in Ht].
           destruct F3 as (Hb & Hpc & Hi); [lia|].
           split; [exact Hpc|]. rewrite (Kb Hb). lia.
        -- intros Hb. destruct (F4 Hb Hc) as [Hb' Hi].
           rewrite (Kb Hb'). lia.
      * destruct (Nat.eq_dec (count is_soft_reboot calls) 0) as [Hc|Hc].
        -- rewrite (first_cycle_all calls Hc). intros Hm.
           destruct (Nat.eq_dec (count is_main_py t) 0) as [Ht|Ht];
             [|now apply Hmain in Ht].
           destruct F3 as (Hb & Hpc & Hi); [lia|].
           rewrite (Kb Hb). lia.
        -- destruct (F2 Hc) as [-> _]. cbn. rewrite !Nat.add_0_r.
           exact K2.
    + split; [intros; lia | exact K2].
  - cbn. split; [|intros H; now elim H].
    intros _. split; [intros H; now elim H | reflexivity].
Qed.

Lemma main_py_cycle_skips_the_repl_witness :
  count is_interactive
    (first_cycle
       (fst (run sample_config
               [ret 0; ret 0; ret 0; ret 0; ret 0; ret 1; ret 0; ret 1;
                ret 0; ret 0; ret 0]
               (power_on false)))) = 0%nat.
Proof.
  apply main_py_cycle_skips_the_repl. vm_compute. discriminate.
Defined.


(** *** The host-script phase *)

(** X14. Once line 243 is reached, the teardown follows within four steps,
    whether a script is ready or not, whether the script returns or leaves
    by an exception, whether the channel is busy or not and however the
    wait ends: after a host script there is no way back to the REPL. *)
Theorem host_phase_ends_in_teardown :
  forall (c : config) (s : state) (inputs : list resp),
  pc s = L_host_check ->
  (4 <= List.length inputs)%nat ->
  exists n, (n <= 4)%nat
            /\ pc (snd (run c (firstn n inputs) s)) = L_soft_reset_exit.
Proof.
  intros c s inputs Hpc Hlen.
  destruct inputs as [|i1 [|i2 [|i3 [|i4 rest]]]];
    cbn [List.length] in Hlen; try lia.
  destruct s as [l fsr intr irq]. cbn [pc] in Hpc. subst l.
  destruct (truthy (value i1)) eqn:H1.
  - destruct (truthy (value i3)) eqn:H3.
    + exists 4%nat. split; [lia|].
      cbn [firstn run step pc]. rewrite H1. unfold goto at 1.
      cbn [run step pc]. destruct (outcome_of i2); unfold goto at 1;
        cbn [run step pc]; rewrite H3; unfold goto at 1;
        cbn [run step pc]; destruct (outcome_of i4); reflexivity.
    + exists 3%nat. split; [lia|].
      cbn [firstn run step pc]. rewrite H1. unfold goto at 1.
      cbn [run step pc]. destruct (outcome_of i2); unfold goto at 1;
        cbn [run step pc]; rewrite H3; reflexivity.
  - exists 1%nat. split; [lia|].
    cbn [firstn run step pc]. now rewrite H1.
Qed.

Lemma host_phase_ends_in_teardown_witness :
  exists n, (n <= 4)%nat
    /\ pc (snd (run sample_config (firstn n [ret 1; raise; ret 1; raise])
                  (at_label L_host_check true))) = L_soft_reset_exit.
Proof.
  apply host_phase_ends_in_teardown; [reflexivity | cbn; lia].
Defined.


(** *** The nlr stack *)

(** X16. Every [nlr_push] of [main] is matched by an [nlr_pop], by an
    exception that unwinds to it, or by the [break] of a REPL that returned
    nonzero, which leaves the loop before [nlr_pop]; one push is open while
    a REPL runs. *)
Theorem nlr_pushes_are_accounted_for :
  forall (c : config) (irq : bool) (inputs : list resp),
  (count is_nlr_push (fst (run c inputs (power_on irq)))
   = count is_nlr_pop (fst (run c inputs (power_on irq)))
     + count is_raised (fst (run c inputs (power_on irq)))
     + count is_repl_exit (fst (run c inputs (power_on irq)))
     + (if in_repl (pc (snd (run c inputs (power_on irq))))
        then 1 else 0))%nat.
Proof.
  intros c irq inputs.
  apply (run_invariant c
           (fun t s =>
              (count is_nlr_push t
               = count is_nlr_pop t + count is_raised t
                 + count is_repl_exit t
                 + (if in_repl (pc s) then 1 else 0))%nat))
    with (t := []); [|reflexivity].
  clear. intros t s i calls s' HI Hs.
  rewrite !count_app. unfold count in *.
  destruct s as [l fsr intr irq]. account Hs.
Qed.

(** *** What ends a cycle *)


(** *** The filesystem *)

(** X18. A filesystem is created only after a mount reported
    [-MP_ENODEV], and the mount is repeated only after the creation
    succeeded: along every execution each [mp_init_filesystem] goes with
    one [mp_fat_vfs_make_new], there are no more of them than mounts that
    returned [-MP_ENODEV], and the mounts are the first attempts (one per
    [rp2_flash_make_new]) plus one per successful creation, the last of
    which is still due while control stands at line 191. *)
Theorem filesystem_calls_are_accounted_for :
  forall (c : config) (irq : bool) (inputs : list resp),
  count is_mkfs (fst (run c inputs (power_on irq)))
  = count is_fat_new (fst (run c inputs (power_on irq)))
  /\ (count is_mkfs (fst (run c inputs (power_on irq)))
      <= count (is_mount_enodev c) (fst (run c inputs (power_on irq))))%nat
  /\ (count is_mount (fst (run c inputs (power_on irq)))
      + (if at_remount (pc (snd (run c inputs (power_on irq))))
         then 1 else 0)
      = count is_flash_new (fst (run c inputs (power_on irq)))
        + count is_mkfs_ok (fst (run c inputs (power_on irq))))%nat.
Proof.
  intros c irq inputs.
  assert (H : count is_mkfs (fst (run c inputs (power_on irq)))
              = count is_fat_new (fst (run c inputs (power_on irq)))
              /\ (count is_mkfs (fst (run c inputs (power_on irq)))
                  + (if at_mkfs (pc (snd (run c inputs (power_on irq))))
                     then 1 else 0)
                  <= count (is_mount_enodev c)
                       (fst (run c inputs (power_on irq))))%nat
              /\ (count is_mount (fst (run c inputs (power_on irq)))
                  + (if at_remount (pc (snd (run c inputs (power_on irq))))
                     then 1 else 0)
                  = count is_flash_new (fst (run c inputs (power_on irq)))
                    + count is_mkfs_ok
                        (fst (run c inputs (power_on irq))))%nat).
  { apply (run_invariant c
             (fun t s =>
                count is_mkfs t = count is_fat_new t
                /\ (count is_mkfs t + (if at_mkfs (pc s) then 1 else 0)
                    <= count (is_mount_enodev c) t)%nat
                /\ (count is_mount t + (if at_remount (pc s) then 1 else 0)
                    = count is_flash_new t + count is_mkfs_ok t)%nat))
      with (t := []); [|cbn; lia].
    clear. intros t s i calls s' (H1 & H2 & H3) Hs.
    rewrite !count_app. unfold count in *.
    destruct s as [l fsr intr irq]. account Hs. }
  destruct H as (H1 & H2 & H3). repeat split; try assumption; lia.
Qed.


(** *** Bring-up always gets to boot.py *)

Lemma storage_after_three_steps (c : config) (irq : bool) (i1 i2 i3 : resp) :
  pc (snd (run c [i1; i2; i3] (power_on irq))) = L_storage.
Proof.
  cbn [run step pc power_on]. unfold goto at 1. cbn [run step pc].
  unfold goto at 1. cbn [run step pc].
  destruct (MICROPY_PY_SENSOR c); [destruct (value i3 =? 0)|]; reflexivity.
Qed.

Lemma boot_py_step_counts (c : config) (s : state) (j : resp)
  (rest : list resp) :
  pc s = L_boot_py ->
  (1 <= count (is_boot_py true) (fst (run c (j :: rest) s))
        + count (is_boot_py false) (fst (run c (j :: rest) s)))%nat.
Proof.
  intros Hpc. cbn [run]. unfold step. rewrite Hpc. unfold goto.
  match goal with
  | |- context [run c rest ?s1] => destruct (run c rest s1) as [t sf]
  end.
  cbn [fst]. rewrite !count_app. unfold count.
  destruct (truthy (value j)); cbn; lia.
Qed.

(** X19. Whatever the sensor, the mount, the filesystem creation and the
    USB stack answer, the bring-up reaches boot.py: every execution of nine
    steps or more has run boot.py. *)
Theorem boot_py_runs_within_nine_steps :
  forall (c : config) (irq : bool) (inputs : list resp),
  (9 <= List.length inputs)%nat ->
  (1 <= count (is_boot_py true) (fst (run c inputs (power_on irq)))
        + count (is_boot_py false) (fst (run c inputs (power_on irq))))%nat.
Proof.
  intros c irq inputs Hlen.
  destruct inputs as [|i1 [|i2 [|i3 rest]]];
    cbn [List.length] in Hlen; try lia.
  change (i1 :: i2 :: i3 :: rest) with ([i1; i2; i3] ++ rest).
  rewrite run_app. cbn [fst]. rewrite !count_app.
  pose proof (storage_after_three_steps c irq i1 i2 i3) as Hpc.
  set (s3 := snd (run c [i1; i2; i3] (power_on irq))) in *.
  destruct (boot_py_reached c s3 rest Hpc) as (n & Hn & Hb); [lia|].
  rewrite <- (firstn_skipn n rest) at 1 2.
  rewrite run_app. cbn [fst]. rewrite !count_app.
  destruct (skipn n rest) as [|j rest'] eqn:Hsk.
  - apply (f_equal (@List.length resp)) in Hsk.
    rewrite length_skipn in Hsk. cbn [List.length] in Hsk. lia.
  - pose proof (boot_py_step_counts c _ j rest' Hb). lia.
Qed.

Lemma boot_py_runs_within_nine_steps_witness :
  (1 <= count (is_boot_py true)
          (fst (run sample_config
                  [ret 0; ret 0; ret 7; ret (-19); ret 0; ret 0; ret 0;
                   ret 0; ret 0]
                  (power_on false)))
        + count (is_boot_py false)
            (fst (run sample_config
                    [ret 0; ret 0; ret 7; ret (-19); ret 0; ret 0; ret 0;
                     ret 0; ret 0]
                    (power_on false))))%nat.
Proof.
  apply boot_py_runs_within_nine_steps. cbn. lia.
Defined.


(** *** main.py is run when it is found *)

(** X20. main.py is looked for at most once per power-on, and it is run
    exactly when that stat found it: along every execution there is at most
    one [mp_vfs_import_stat], and the runs of main.py, counting the one
    about to start at line 216, equal the stats that returned nonzero. *)
Theorem main_py_runs_when_found :
  forall (c : config) (irq : bool) (inputs : list resp),
  (count is_stat (fst (run c inputs (power_on irq))) <= 1)%nat
  /\ (count is_main_py (fst (run c inputs (power_on irq)))
      + (if at_main_py (pc (snd (run c inputs (power_on irq))))
         then 1 else 0)
      = count is_stat_found (fst (run c inputs (power_on irq))))%nat.
Proof.
  intros c irq inputs.
  assert (H : (count is_stat (fst (run c inputs (power_on irq)))
               + stat_budget (snd (run c inputs (power_on irq))) <= 1)%nat
              /\ (count is_main_py (fst (run c inputs (power_on irq)))
                  + (if at_main_py (pc (snd (run c inputs (power_on irq))))
                     then 1 else 0)
                  = count is_stat_found
                      (fst (run c inputs (power_on irq))))%nat).
  { apply (run_invariant c
             (fun t s =>
                (count is_stat t + stat_budget s <= 1)%nat
                /\ (count is_main_py t
                    + (if at_main_py (pc s) then 1 else 0)
                    = count is_stat_found t)%nat))
      with (t := []); [|cbn; lia].
    clear. intros t s i calls s' [H1 H2] Hs.
    rewrite !count_app. unfold count, stat_budget, main_budget in *.
    destruct s as [l fsr intr irq].
    account Hs; destruct fsr, intr; cbn in *; lia. }
  destruct H as [H1 H2]. split; [lia | exact H2].
Qed.

End LifecycleMore.

(* ------------------------------------------------------------------------- *)
(** * Failing inits *)

Module BringUp.

Import Lifecycle Accounting LifecycleSpec LifecycleMore.





End BringUp.
